(** * Christmas tree scene: the procedural core of [src/index.tsx]

    The file embeds the numeric core of the scene (tree brush layout, brush
    colours, ribbon curve, ribbon text, falling snow, background blend) and
    proves the properties stated for it.

    Numbers.  A JavaScript number is an IEEE-754 double.  The embedding takes
    the finite ones as real numbers (rounding is not modelled) and keeps the
    three special values, so that [0/0], a read of [undefined] and the
    comparisons with [NaN] behave as in the source.  Signed zeros are not
    distinguished: a zero divisor counts as [+0].

    Randomness.  [Math.random()] is the next element of a stream
    [rnd : nat -> R] with values in [0, 1); the position in the stream is
    threaded through the code that draws from it. *)

From Stdlib Require Import Reals Lra Lia List Arith PeanoNat Bool.
From Stdlib Require Import NArith String Ascii.
Import ListNotations.

Open Scope string_scope.
Open Scope list_scope.
Open Scope R_scope.

(** ** JavaScript numbers *)

Module Js.

Inductive num : Type :=
| Fin (x : R)
| PInf
| NInf
| NaN.

Definition neg (a : num) : num :=
  match a with
  | Fin x => Fin (- x)
  | PInf => NInf
  | NInf => PInf
  | NaN => NaN
  end.

Definition add (a b : num) : num :=
  match a, b with
  | Fin x, Fin y => Fin (x + y)
  | NaN, _ | _, NaN => NaN
  | PInf, NInf | NInf, PInf => NaN
  | PInf, _ | _, PInf => PInf
  | NInf, _ | _, NInf => NInf
  end.

Definition sub (a b : num) : num := add a (neg b).

(** [i] is an infinity or [NaN]; the product of [i] with the finite [x]. *)
Definition scale_inf (i : num) (x : R) : num :=
  match total_order_T x 0 with
  | inleft (left _) => neg i
  | inleft (right _) => NaN
  | inright _ => i
  end.

Definition mul (a b : num) : num :=
  match a, b with
  | Fin x, Fin y => Fin (x * y)
  | NaN, _ | _, NaN => NaN
  | Fin x, i => scale_inf i x
  | i, Fin x => scale_inf i x
  | PInf, PInf | NInf, NInf => PInf
  | PInf, NInf | NInf, PInf => NInf
  end.

Definition div (a b : num) : num :=
  match a, b with
  | Fin x, Fin y =>
      if Req_dec_T y 0 then scale_inf PInf x else Fin (x / y)
  | NaN, _ | _, NaN => NaN
  | Fin _, _ => Fin 0
  | i, Fin y => if Rlt_dec y 0 then neg i else i
  | _, _ => NaN
  end.

(** [a < b]; false as soon as one side is [NaN]. *)
Definition ltb (a b : num) : bool :=
  match a, b with
  | Fin x, Fin y => if Rlt_dec x y then true else false
  | NInf, Fin _ | NInf, PInf | Fin _, PInf => true
  | _, _ => false
  end.

(** [a <= b]. *)
Definition leb (a b : num) : bool :=
  match a, b with
  | Fin x, Fin y => if Rle_dec x y then true else false
  | NInf, Fin _ | NInf, PInf | Fin _, PInf => true
  | NInf, NInf | PInf, PInf => true
  | _, _ => false
  end.

(** [Math.min] and [Math.max]: [NaN] when an argument is. *)
Definition min (a b : num) : num :=
  match a, b with
  | NaN, _ | _, NaN => NaN
  | _, _ => if ltb a b then a else b
  end.

Definition max (a b : num) : num :=
  match a, b with
  | NaN, _ | _, NaN => NaN
  | _, _ => if ltb a b then b else a
  end.

(** [Math.sqrt], [Math.cos], [Math.sin]. *)
Definition sqrt (a : num) : num :=
  match a with
  | Fin x => if Rlt_dec x 0 then NaN else Fin (R_sqrt.sqrt x)
  | PInf => PInf
  | _ => NaN
  end.

Definition cos (a : num) : num :=
  match a with Fin x => Fin (Rtrigo_def.cos x) | _ => NaN end.

Definition sin (a : num) : num :=
  match a with Fin x => Fin (Rtrigo_def.sin x) | _ => NaN end.

(** [Math.atan2 y x] on finite arguments. *)
Definition atan2R (y x : R) : R :=
  match total_order_T x 0 with
  | inright _ => atan (y / x)
  | inleft (left _) =>
      if Rlt_dec y 0 then atan (y / x) - PI else atan (y / x) + PI
  | inleft (right _) =>
      match total_order_T y 0 with
      | inright _ => PI / 2
      | inleft (left _) => - (PI / 2)
      | inleft (right _) => 0
      end
  end.

Definition atan2 (y x : num) : num :=
  match y, x with
  | Fin b, Fin a => Fin (atan2R b a)
  | NaN, _ | _, NaN => NaN
  | Fin b, PInf => Fin 0
  | Fin b, NInf => if Rlt_dec b 0 then Fin (- PI) else Fin PI
  | PInf, Fin _ => Fin (PI / 2)
  | NInf, Fin _ => Fin (- (PI / 2))
  | PInf, PInf => Fin (PI / 4)
  | NInf, PInf => Fin (- (PI / 4))
  | PInf, NInf => Fin (3 * PI / 4)
  | NInf, NInf => Fin (- (3 * PI / 4))
  end.

(** A read that yields [undefined] becomes [NaN] under arithmetic. *)
Definition toNumber (v : option num) : num :=
  match v with Some a => a | None => NaN end.

(** The value is a real number within [lo, hi]. *)
Definition within (lo hi : R) (a : num) : Prop :=
  exists x, a = Fin x /\ lo <= x <= hi.

End Js.

Coercion Js.Fin : R >-> Js.num.

Declare Scope js_scope.
Delimit Scope js_scope with js.
Bind Scope js_scope with Js.num.
Infix "+" := Js.add : js_scope.
Infix "-" := Js.sub : js_scope.
Infix "*" := Js.mul : js_scope.
Infix "/" := Js.div : js_scope.
Infix "<?" := Js.ltb : js_scope.
Infix "<=?" := Js.leb : js_scope.

(** [THREE.Vector3], also used for the Euler angles of a rotation. *)
Record Vector3 : Type := vec3 { vx : Js.num; vy : Js.num; vz : Js.num }.

(** [THREE.Color]. *)
Record Color : Type := rgb { cr : Js.num; cg : Js.num; cb : Js.num }.

(** Modelled from the spec: linear interpolation between two colours,
    [Color.lerpColors] of three.js, which is not part of the sources; every
    channel of the result is [c1 + (c2 - c1) * alpha]. *)
Definition lerpColors (color1 color2 : Color) (alpha : Js.num) : Color :=
  rgb (cr color1 + (cr color2 - cr color1) * alpha)%js
      (cg color1 + (cg color2 - cg color1) * alpha)%js
      (cb color1 + (cb color2 - cb color1) * alpha)%js.

(** Modelled from the spec: [Color.lerp] of three.js, the in-place form:
    [this.r += (color.r - this.r) * alpha], and so for [g] and [b]. *)
Definition lerp (this color : Color) (alpha : Js.num) : Color :=
  lerpColors this color alpha.

(** ** Themes *)

Inductive ThemeKey : Type :=
| deepBlue | lightBlue | pink | red | white | green | purple | gold.

Record Theme : Type := mkTheme {
  label : string;
  leavesHigh : string;
  leavesLow : string;
  ribbon : string;
  text : string;
  bg : string;
  star : string
}.

Definition THEMES (k : ThemeKey) : Theme :=
  match k with
  | deepBlue =>
      mkTheme "Midnight" "#3b82f6" "#1e3a8a" "#fcd34d" "#451a03" "#0b1120"
              "#fbbf24"
  | lightBlue =>
      mkTheme "Frozen" "#e0f2fe" "#0ea5e9" "#1e3a8a" "#ffffff" "#0f172a"
              "#bae6fd"
  | pink =>
      mkTheme "Dreamy" "#fbcfe8" "#db2777" "#fff1f2" "#831843" "#4a044e"
              "#fce7f3"
  | red =>
      mkTheme "Festive" "#ef4444" "#991b1b" "#fde047" "#450a0a" "#2d0a0a"
              "#facc15"
  | white =>
      mkTheme "Silver" "#ffffff" "#94a3b8" "#dc2626" "#ffffff" "#111827"
              "#f1f5f9"
  | green =>
      mkTheme "Classic" "#4ade80" "#15803d" "#ef4444" "#ffffff" "#022c22"
              "#fbbf24"
  | purple =>
      mkTheme "Royal" "#d8b4fe" "#7e22ce" "#fae8ff" "#3b0764" "#1e1b4b"
              "#e9d5ff"
  | gold =>
      mkTheme "Luxury" "#fde047" "#d97706" "#b91c1c" "#fcd34d" "#1c1917"
              "#fffbeb"
  end.

(** Every channel of the colour is a real number within [0, 1]. *)
Definition inGamut (c : Color) : Prop :=
  Js.within 0 1 (cr c) /\ Js.within 0 1 (cg c) /\ Js.within 0 1 (cb c).

(** ** The tree ([StylizedTree]) *)

Module Tree.

(** *** 1. Static structure: the brush layout *)

Section TreeLayout.

(** The stream behind [Math.random()]. *)
Variable rnd : nat -> R.

(** The Euler angles [Object3D.lookAt] leaves in [dummy.rotation], from the
    position of the object and the target (library code of three.js). *)
Variable lookAt : Vector3 -> Vector3 -> Vector3.

(** The three arrays under construction, the running [index], and the
    number of random draws made so far. *)
Record Layout : Type := mkLayout {
  pos : list Js.num;
  rot : list Js.num;
  sca : list Js.num;
  index : nat;
  draws : nat
}.

Definition emptyLayout (k : nat) : Layout := mkLayout [] [] [] 0 k.

Definition layerProgress (LAYER_COUNT l : nat) : Js.num :=
  (INR l / (INR LAYER_COUNT - 1))%js.

Definition yBase (l : nat) : Js.num := (-3.5 + INR l * 1.3)%js.

Definition radiusBase (LAYER_COUNT l : nat) : Js.num :=
  (3.8 * (1 - layerProgress LAYER_COUNT l * 0.95))%js.

(** The position of one brush, from the draws [u1], [u2], [u3]. *)
Definition brushPosition (yB rB : Js.num) (u1 u2 u3 : R) : Vector3 :=
  let r := (Js.sqrt u1 * rB)%js in
  let angle := (u2 * PI * 2)%js in
  let h := (u3 * 1.0)%js in
  let x := (Js.cos angle * r)%js in
  let z := (Js.sin angle * r)%js in
  let y := (yB + h * (1 - r / rB * 0.3))%js in
  vec3 x y z.

(** The body of the inner loop after the [break] test. *)
Definition brush (yB rB : Js.num) (st : Layout) : Layout :=
  let k := draws st in
  let p := brushPosition yB rB (rnd k) (rnd (k + 1)) (rnd (k + 2)) in
  let e := lookAt p (vec3 0 (vy p + 5)%js 0) in
  let rx := (vx e + (rnd (k + 3) - 0.5) * 1.0)%js in
  let rz := (vz e + (rnd (k + 4) - 0.5) * 1.0)%js in
  let ry := (vy e + (rnd (k + 5) - 0.5) * 2.0)%js in
  let s := (0.3 + rnd (k + 6) * 0.5)%js in
  mkLayout (pos st ++ [vx p; vy p; vz p])
           (rot st ++ [rx; ry; rz])
           (sca st ++ [s; s; s])
           (S (index st))
           (k + 7).

(** [for (let i = 0; i < count; i++)], with [n] iterations left. *)
Fixpoint brushLoop (BRUSH_COUNT : nat) (yB rB : Js.num) (n : nat)
    (st : Layout) : Layout :=
  match n with
  | O => st
  | S n' =>
      if (BRUSH_COUNT <=? index st)%nat then st
      else brushLoop BRUSH_COUNT yB rB n' (brush yB rB st)
  end.

(** The body of the outer loop. *)
Definition layer (BRUSH_COUNT LAYER_COUNT : nat) (st : Layout) (l : nat)
    : Layout :=
  let count := (BRUSH_COUNT / LAYER_COUNT)%nat in
  brushLoop BRUSH_COUNT (yBase l) (radiusBase LAYER_COUNT l) count st.

(** [for (let l = 0; l < LAYER_COUNT; l++)], first random draw number [k]. *)
Definition layout (BRUSH_COUNT LAYER_COUNT k : nat) : Layout :=
  fold_left (layer BRUSH_COUNT LAYER_COUNT) (seq 0 LAYER_COUNT)
            (emptyLayout k).

(** The number of brushes an array of coordinates holds. *)
Definition instances (st : Layout) : nat := (List.length (pos st) / 3)%nat.

(** The position stored for brush [j]. *)
Definition positionAt (ps : list Js.num) (j : nat) : option Vector3 :=
  match nth_error ps (j * 3), nth_error ps (j * 3 + 1),
        nth_error ps (j * 3 + 2) with
  | Some x, Some y, Some z => Some (vec3 x y z)
  | _, _, _ => None
  end.

(** The distance of a position from the vertical axis. *)
Definition horizontalRadius (p : Vector3) : Js.num :=
  Js.sqrt (vx p * vx p + vz p * vz p)%js.

End TreeLayout.

(** *** 2. Initialize geometry *)

Definition LAYER_COUNT : nat := 9.
Definition BRUSH_COUNT : nat := 1100.

(** What the loop hands to [dummy.position.set], [dummy.rotation.set] and
    [dummy.scale.set] for one instance: three array reads each, [None] for
    a read past the end ([undefined]). *)
Definition Triple : Type :=
  (option Js.num * option Js.num * option Js.num)%type.

Definition read3 (a : list Js.num) (i : nat) : Triple :=
  (nth_error a (i * 3), nth_error a (i * 3 + 1), nth_error a (i * 3 + 2)).

Record Transform : Type := mkTransform {
  tPosition : Triple;
  tRotation : Triple;
  tScale : Triple
}.

(** The effect, in the mounted case: one transform per instance slot, from
    which three.js composes the instance matrix. *)
Definition initGeometry (positions rotations scales : list Js.num)
    : list Transform :=
  map (fun i => mkTransform (read3 positions i) (read3 rotations i)
                            (read3 scales i))
      (seq 0 BRUSH_COUNT).

(** *** 3. Update colors *)

Section TreeColors.

Variable rnd : nat -> R.

(** [new THREE.Color(hex)] (library code of three.js). *)
Variable parseColor : string -> Color.

Definition minY : Js.num := -4.0.
Definition maxY : Js.num := 5.5.
Definition range : Js.num := (maxY - minY)%js.

(** The height factor of a brush at height [y]; [u] is the random draw. *)
Definition heightFactor (y : Js.num) (u : R) : Js.num :=
  let t := ((y - minY) / range)%js in
  let t := Js.max 0 (Js.min 1 t) in
  let noise := ((u - 0.5) * 0.05)%js in
  Js.max 0 (Js.min 1 (t + noise)%js).

(** The two branches on [t]. *)
Definition brushColor (colorLow colorHigh snowColor : Color) (t : Js.num)
    : Color :=
  if (t <? 0.65)%js then
    let localT := (t / 0.65)%js in
    lerpColors colorLow colorHigh localT
  else
    let localT := ((t - 0.65) / 0.35)%js in
    lerpColors colorHigh snowColor (localT * 0.7)%js.

(** The effect, in the mounted case: the colour written for every instance
    slot; [k] is the number of the first random draw. *)
Definition updateColors (themeName : ThemeKey) (positions : list Js.num)
    (k : nat) : list Color :=
  let theme := THEMES themeName in
  let colorHigh := parseColor (leavesHigh theme) in
  let colorLow := parseColor (leavesLow theme) in
  let snowColor := parseColor "#ffffff" in
  map (fun i =>
         let y := Js.toNumber (nth_error positions (i * 3 + 1)) in
         brushColor colorLow colorHigh snowColor
                    (heightFactor y (rnd (k + i))))
      (seq 0 BRUSH_COUNT).

End TreeColors.

End Tree.

(** ** The ribbon and its text ([RibbonWithText]) *)

Module Ribbon.

(** *** The curve *)

Definition turns : Js.num := 3.5.
Definition hStart : Js.num := -3.2.
Definition hEnd : Js.num := 5.8.
Definition segments : nat := 200.

(** The body of the loop: control point number [i]. *)
Definition controlPoint (i : nat) : Vector3 :=
  let t := (INR i / INR segments)%js in
  let angle := (t * PI * 2 * turns)%js in
  let y := (hStart + t * (hEnd - hStart))%js in
  let r := (3.7 * (1 - t) + 0.3)%js in
  vec3 (Js.cos angle * r)%js y (Js.sin angle * r)%js.

(** [for (let i = 0; i <= segments; i++)]. *)
Definition points : list Vector3 := map controlPoint (seq 0 (segments + 1)).

(** *** The text layout *)

(** A string is its sequence of UTF-16 code units, which is what [length],
    [repeat], [substring] and [split('')] work on. *)
Definition jsString : Type := list N.

Definition ofAscii (s : string) : jsString :=
  map N_of_ascii (list_ascii_of_string s).

(** ["   ★   "]: the star is the single code unit U+2605. *)
Definition separator : jsString := [32; 32; 32; 9733; 32; 32; 32]%N.

(** [s.repeat(n)]. *)
Fixpoint repeatString (s : jsString) (n : nat) : jsString :=
  match n with
  | O => []
  | S n' => s ++ repeatString s n'
  end.

(** [Math.ceil(a / b)] for two counts, [b] positive. *)
Definition ceilDiv (a b : nat) : nat :=
  (if a mod b =? 0 then a / b else S (a / b))%nat.

Definition totalCharsNeeded : nat := 140.

(** The characters laid on the ribbon. *)
Definition chars (text : jsString) : jsString :=
  let baseString := text ++ separator in
  firstn totalCharsNeeded
    (repeatString baseString
       (ceilDiv totalCharsNeeded (List.length baseString))).

Record Glyph : Type := mkGlyph {
  char : N;
  position : Vector3;
  rotation : Vector3
}.

Definition startT : Js.num := 0.02.
Definition endT : Js.num := 0.98.

Section TextLayout.

(** [curve.getPointAt] of the Catmull-Rom curve through the given control
    points (library code of three.js). *)
Variable getPointAt : list Vector3 -> Js.num -> Vector3.

(** The body of the loop, for character [c] at index [i]. *)
Definition place (step : Js.num) (i : nat) (c : N) : Glyph :=
  let t := (endT - INR i * step)%js in
  let safeT := Js.min 0.999 (Js.max 0.001 t) in
  let point := getPointAt points safeT in
  let angle := Js.atan2 (vx point) (vz point) in
  mkGlyph c point (vec3 0 angle 0).

Definition textLayout (text : jsString) : list Glyph :=
  match text with
  | [] => []
  | _ =>
      let cs := chars text in
      let range := (endT - startT)%js in
      let step := (range / INR (List.length cs))%js in
      map (fun ic => place step (fst ic) (snd ic))
          (combine (seq 0 (List.length cs)) cs)
  end.

End TextLayout.

End Ribbon.

(** ** Falling snow ([FallingSnow]) *)

Module Snow.

Definition count : nat := 800.

Record Particle : Type := mkParticle {
  position : Vector3;
  speed : Js.num;
  wobbleSpeed : Js.num;
  wobbleOffset : Js.num;
  scale : Js.num
}.

(** What the frame hands to [setMatrixAt] for one particle: the position,
    the uniform scale and the Euler angles of [dummy]. *)
Record Flake : Type := mkFlake {
  fPosition : Vector3;
  fScale : Js.num;
  fRotation : Vector3
}.

Section Particles.

Variable rnd : nat -> R.

(** One particle, from the seven draws that start at number [k]. *)
Definition newParticle (k : nat) : Particle :=
  mkParticle
    (vec3 ((rnd k - 0.5) * 25)%js
          (rnd (k + 1) * 20)%js
          ((rnd (k + 2) - 0.5) * 25)%js)
    (0.03 + rnd (k + 3) * 0.05)%js
    (0.5 + rnd (k + 4))%js
    (rnd (k + 5) * PI * 2)%js
    (0.04 + rnd (k + 6) * 0.06)%js.

(** [new Array(count).fill(0).map(...)], first draw number [k]. *)
Definition particles (k : nat) : list Particle :=
  map (fun i => newParticle (k + 7 * i)) (seq 0 count).

End Particles.

(** The first two statements of the [forEach] body: the fall and the
    recycling of the stored height. *)
Definition fall (p : Particle) : Particle :=
  let y := (vy (position p) - speed p)%js in
  let y := if (y <? -5)%js then Js.Fin 15 else y in
  mkParticle (vec3 (vx (position p)) y (vz (position p)))
             (speed p) (wobbleSpeed p) (wobbleOffset p) (scale p).

(** The rest of the body, on the particle after its fall. *)
Definition flake (time : Js.num) (p : Particle) : Flake :=
  let wobble := (Js.sin (time * wobbleSpeed p + wobbleOffset p) * 0.05)%js in
  mkFlake (vec3 (vx (position p) + wobble)%js (vy (position p))
                (vz (position p)))
          (scale p)
          (vec3 (time * 0.5)%js (time * 0.3)%js 0).

(** One frame: nothing happens while the mesh is not there ([mesh] false);
    otherwise every particle falls and its instance is written. *)
Definition frame (mesh : bool) (time : Js.num) (ps : list Particle)
    : list Particle * list Flake :=
  if mesh then
    let ps' := map fall ps in
    (ps', map (flake time) ps')
  else (ps, []).

(** The particles after the frames at the given times, mesh in place. *)
Definition run (times : list Js.num) (ps : list Particle) : list Particle :=
  fold_left (fun ps time => fst (frame true time ps)) times ps.

(** The stored height of a particle is a real number within [lo, hi]. *)
Definition heightWithin (lo hi : R) (p : Particle) : Prop :=
  Js.within lo hi (vy (position p)).

End Snow.

(** ** The background ([BackgroundController]) *)

Module Background.

Record Scene : Type := mkScene {
  currentColor : Color;
  background : option Color;
  fog : option Color
}.

(** One frame with the given target colour and frame time. *)
Definition frame (targetColor : Color) (delta : Js.num) (s : Scene)
    : Scene :=
  let d := Js.min delta 0.1 in
  let c := lerp (currentColor s) targetColor (d * 2)%js in
  mkScene c (Some c)
          (match fog s with Some _ => Some c | None => None end).

End Background.

(** ** Closed forms and sample inputs used in the statements *)

(** The layer of brush [j] and its position, read off the loop nest: brush
    [j] belongs to layer [j / count] and uses the seven draws from number
    [k + 7 * j] on. *)
Definition layerOf (BRUSH_COUNT LAYER_COUNT j : nat) : nat :=
  (j / (BRUSH_COUNT / LAYER_COUNT))%nat.

Definition brushAt (rnd : nat -> R) (BRUSH_COUNT LAYER_COUNT k j : nat)
    : Vector3 :=
  let l := layerOf BRUSH_COUNT LAYER_COUNT j in
  Tree.brushPosition (Tree.yBase l) (Tree.radiusBase LAYER_COUNT l)
    (rnd (k + 7 * j)%nat) (rnd (k + 7 * j + 1)%nat) (rnd (k + 7 * j + 2)%nat).

Definition coords (p : Vector3) : list Js.num := [vx p; vy p; vz p].

(** The state of the loop nest once [m] brushes are in the arrays. *)
Definition layoutState (rnd : nat -> R) (BRUSH_COUNT LAYER_COUNT k m : nat)
    (st : Tree.Layout) : Prop :=
  Tree.index st = m /\
  Tree.draws st = (k + 7 * m)%nat /\
  Tree.pos st =
    flat_map (fun j => coords (brushAt rnd BRUSH_COUNT LAYER_COUNT k j))
             (seq 0 m) /\
  List.length (Tree.rot st) = (3 * m)%nat /\
  List.length (Tree.sca st) = (3 * m)%nat.

(** The output size as the specification words it in the contract of the
    generator: exactly [N] instances. *)
Definition exactCount (rnd : nat -> R) (lookAt : Vector3 -> Vector3 -> Vector3)
    (N L k : nat) : Prop :=
  Tree.instances (Tree.layout rnd lookAt N L k) = N.

(** The layout contract as the specification words it among the testable
    properties, for [N] brushes in [L] layers: the number of instances;
    every brush within the radius of its layer; the base heights increasing
    with the layer. *)
Definition layoutContract (rnd : nat -> R)
    (lookAt : Vector3 -> Vector3 -> Vector3) (N L k : nat) : Prop :=
  let st := Tree.layout rnd lookAt N L k in
  Tree.instances st = (N / L * L)%nat /\
  (forall j, (j < N / L * L)%nat ->
     exists p, Tree.positionAt (Tree.pos st) j = Some p /\
       (Tree.horizontalRadius p <=? Tree.radiusBase L (layerOf N L j))%js
       = true) /\
  (forall l l', (l < l')%nat -> (Tree.yBase l <? Tree.yBase l')%js = true).

(** The transform of a slot all of whose reads are [undefined], and what it
    means for a triple of reads to be defined. *)
Definition undefinedTransform : Tree.Transform :=
  Tree.mkTransform (None, None, None) (None, None, None) (None, None, None).

Definition definedTriple (t : Tree.Triple) : Prop :=
  exists x y z, t = (Some x, Some y, Some z).

Definition definedTransform (t : Tree.Transform) : Prop :=
  definedTriple (Tree.tPosition t) /\ definedTriple (Tree.tRotation t) /\
  definedTriple (Tree.tScale t).

(** A colour parser for the sample runs: the channels of a ["#rrggbb"]
    string as fractions of 255, black for any other string. *)
Definition hexDigit (c : ascii) : option N :=
  let n := N_of_ascii c in
  if ((48 <=? n) && (n <=? 57))%N then Some (n - 48)%N
  else if ((97 <=? n) && (n <=? 102))%N then Some (n - 87)%N
  else if ((65 <=? n) && (n <=? 70))%N then Some (n - 55)%N
  else None.

Definition hexByte (hi lo : ascii) : option N :=
  match hexDigit hi, hexDigit lo with
  | Some h, Some l => Some (16 * h + l)%N
  | _, _ => None
  end.

Definition channel (n : N) : Js.num := Js.Fin (IZR (Z.of_N n) / 255).

Definition hexColor (hex : string) : Color :=
  match list_ascii_of_string hex with
  | [h; r1; r2; g1; g2; b1; b2] =>
      match Ascii.eqb h "#", hexByte r1 r2, hexByte g1 g2, hexByte b1 b2 with
      | true, Some r, Some g, Some b =>
          rgb (channel r) (channel g) (channel b)
      | _, _, _, _ => rgb 0 0 0
      end
  | _ => rgb 0 0 0
  end.

(** The colour contract as the specification words it, for a theme and a
    height factor [t]: the two segments of the gradient, the bound on the
    fraction toward white, and tips that are not pure white. *)
Definition gradientContract (parseColor : string -> Color)
    (themeName : ThemeKey) (t : R) : Prop :=
  let lowColor := parseColor (leavesLow (THEMES themeName)) in
  let highColor := parseColor (leavesHigh (THEMES themeName)) in
  let snow := parseColor "#ffffff" in
  let c := Tree.brushColor lowColor highColor snow t in
  (t < 0.65 -> c = lerpColors lowColor highColor (t / 0.65)%R) /\
  (0.65 <= t ->
     c = lerpColors highColor snow ((t - 0.65) / 0.35 * 0.7)%R /\
     (t - 0.65) / 0.35 * 0.7 <= 0.7 /\
     c <> snow).

(** The control point number [i] of the ribbon curve as the specification
    words it, over the real numbers. *)
Definition helixPoint (i : nat) : Vector3 :=
  let t := INR i / 200 in
  let h := -3.2 + t * (5.8 - -3.2) in
  let r := 3.7 * (1 - t) + 0.3 in
  vec3 (Js.Fin (cos (t * (2 * PI) * 3.5) * r)) (Js.Fin h)
       (Js.Fin (sin (t * (2 * PI) * 3.5) * r)).

(** The curve parameter of glyph [i] as the specification words it, the
    clamp applied before sampling, and a sampler for the sample runs, which
    always answers the first control point. *)
Definition glyphT (i : nat) : R := 0.98 - INR i * ((0.98 - 0.02) / 140).

Definition clampT (t : R) : R := Rmin 0.999 (Rmax 0.001 t).

Definition firstPoint : list Vector3 -> Js.num -> Vector3 :=
  fun pts _ => hd (vec3 0 0 0) pts.

(** The snow contract as the specification words it: after the frames at
    the given times the particles are as many as at construction, 800, and
    every stored height lies within [-5, 15]. *)
Definition snowContract (rnd : nat -> R) (k : nat) (times : list Js.num)
    : Prop :=
  let ps := Snow.run times (Snow.particles rnd k) in
  List.length ps = List.length (Snow.particles rnd k) /\
  List.length ps = 800%nat /\
  Forall (Snow.heightWithin (-5) 15) ps.

(** A particle with fall speed [s] and stored height [v], both real. *)
Definition falling (s v : R) (p : Snow.Particle) : Prop :=
  Snow.speed p = Js.Fin s /\ vy (Snow.position p) = Js.Fin v.

(** A random stream is admissible when its values lie in [0, 1). *)
Definition uniform01 (rnd : nat -> R) : Prop := forall k, 0 <= rnd k < 1.

(** A constant stream and a [lookAt] that always answers the zero angles. *)
Definition constStream (u : R) : nat -> R := fun _ => u.
Definition zeroLookAt : Vector3 -> Vector3 -> Vector3 :=
  fun _ _ => vec3 0 0 0.

(** ** Idle motion ([useFrame] of [StylizedTree] and of [RibbonWithText]) *)

Module Idle.



End Idle.

(** ** The application state ([App], [UI], [SceneContent]) *)

Module App.

Inductive Mode : Type := edit | view.

Record AppState : Type := mkAppState {
  colorTheme : ThemeKey;
  blessingText : Ribbon.jsString;
  mode : Mode;
  isRecording : bool
}.

(** The argument of [useState]. *)
Definition initialState : AppState :=
  mkAppState deepBlue (Ribbon.ofAscii "MERRY CHRISTMAS") edit false.

(** The state updaters handed to [setState]. *)
Definition setColorTheme (key : ThemeKey) (s : AppState) : AppState :=
  mkAppState key (blessingText s) (mode s) (isRecording s).

Definition setBlessingText (value : Ribbon.jsString) (s : AppState)
    : AppState :=
  mkAppState (colorTheme s) value (mode s) (isRecording s).

Definition setMode (m : Mode) (s : AppState) : AppState :=
  mkAppState (colorTheme s) (blessingText s) m (isRecording s).

Definition setIsRecording (b : bool) (s : AppState) : AppState :=
  mkAppState (colorTheme s) (blessingText s) (mode s) b.

(** [handleDownloadVideo] up to the end of its [try] block: [canvas] tells
    whether the page has a canvas, [recorder] whether the recorder could be
    set up and started (otherwise the [catch] block runs). *)
Definition handleDownloadVideo (canvas recorder : bool) (s : AppState)
    : AppState :=
  if negb canvas then s
  else
    let s := setIsRecording true s in
    if recorder then s else setIsRecording false s.

(** What the user and the recorder can do, each with its handler; which
    controls are shown or disabled at a time is left aside. *)
Inductive Event : Type :=
| PickTheme (key : ThemeKey)
| TypeText (value : Ribbon.jsString)
| Confirm
| Edit
| Download (canvas recorder : bool)
| RecorderStopped.

Definition handle (s : AppState) (e : Event) : AppState :=
  match e with
  | PickTheme key => setColorTheme key s
  | TypeText value => setBlessingText value s
  | Confirm => setMode view s
  | Edit => setMode edit s
  | Download canvas recorder => handleDownloadVideo canvas recorder s
  | RecorderStopped => setIsRecording false s
  end.

Definition handleAll (es : list Event) (s : AppState) : AppState :=
  fold_left handle es s.

(** The props [App] passes to [SceneContent]. *)
Definition sceneProps (s : AppState) : ThemeKey * Ribbon.jsString * bool :=
  (colorTheme s, blessingText s, isRecording s).

(** [autoRotateSpeed] of the orbit controls. *)
Definition autoRotateSpeed (isRecording : bool) : Js.num :=
  if isRecording then 2.0 else 0.8.

Definition changesMode (e : Event) : bool :=
  match e with Confirm | Edit => true | _ => false end.

End App.

(** ** Further closed forms used in the statements *)

(** The loop nest of the layout without the [break] test. *)
Definition layoutWithoutBreak (rnd : nat -> R)
    (lookAt : Vector3 -> Vector3 -> Vector3) (BRUSH_COUNT LAYER_COUNT k : nat)
    : Tree.Layout :=
  fold_left
    (fun st l =>
       Nat.iter (BRUSH_COUNT / LAYER_COUNT)
         (Tree.brush rnd lookAt (Tree.yBase l)
            (Tree.radiusBase LAYER_COUNT l)) st)
    (seq 0 LAYER_COUNT) (Tree.emptyLayout k).

(** The scale of brush [j], from the seventh of its draws. *)
Definition brushScale (rnd : nat -> R) (k j : nat) : R :=
  0.3 + rnd (k + 7 * j + 6)%nat * 0.5.

(** The Euler angles of brush [j]: those of [lookAt], each with its jitter. *)
Definition brushRotation (rnd : nat -> R)
    (lookAt : Vector3 -> Vector3 -> Vector3) (BRUSH_COUNT LAYER_COUNT k j : nat)
    : list Js.num :=
  let p := brushAt rnd BRUSH_COUNT LAYER_COUNT k j in
  let e := lookAt p (vec3 0 (vy p + 5)%js 0) in
  [ (vx e + (rnd (k + 7 * j + 3)%nat - 0.5) * 1.0)%js;
    (vy e + (rnd (k + 7 * j + 5)%nat - 0.5) * 2.0)%js;
    (vz e + (rnd (k + 7 * j + 4)%nat - 0.5) * 1.0)%js ].

Definition scales (rnd : nat -> R) (k j : nat) : list Js.num :=
  let s := Js.Fin (brushScale rnd k j) in [s; s; s].

(** The three arrays once [m] brushes are in them. *)
Definition arraysState (rnd : nat -> R)
    (lookAt : Vector3 -> Vector3 -> Vector3) (BRUSH_COUNT LAYER_COUNT k m : nat)
    (st : Tree.Layout) : Prop :=
  layoutState rnd BRUSH_COUNT LAYER_COUNT k m st /\
  Tree.rot st =
    flat_map (brushRotation rnd lookAt BRUSH_COUNT LAYER_COUNT k) (seq 0 m) /\
  Tree.sca st = flat_map (scales rnd k) (seq 0 m).

(** The three reads of a transform that are all defined. *)
Definition readsOf (l : list Js.num) : option Tree.Triple :=
  match l with
  | [a; b; c] => Some (Some a, Some b, Some c)
  | _ => None
  end.

(** The height factor of a brush at the real height [y], drawn noise [u],
    over the real numbers. *)
Definition heightFactorR (y u : R) : R :=
  Rmax 0 (Rmin 1 (Rmax 0 (Rmin 1 ((y - -4.0) / (5.5 - -4.0)))
                  + (u - 0.5) * 0.05)).

(** The frames of the background controller at the given frame times. *)
Definition backgroundFrames (targetColor : Color) (deltas : list Js.num)
    (s : Background.Scene) : Background.Scene :=
  fold_left (fun s delta => Background.frame targetColor delta s) deltas s.

(** What a frame of the snow never touches in a particle. *)
Definition fixedPart (p : Snow.Particle)
    : Js.num * Js.num * Js.num * Js.num * Js.num * Js.num :=
  (vx (Snow.position p), vz (Snow.position p), Snow.speed p,
   Snow.wobbleSpeed p, Snow.wobbleOffset p, Snow.scale p).

(** What is left of the distance to the target after frames of the given
    real frame times: the product of the factors [1 - min(delta, 0.1) * 2]. *)
Fixpoint remaining (deltas : list R) : R :=
  match deltas with
  | [] => 1
  | delta :: rest => (1 - Rmin delta 0.1 * 2) * remaining rest
  end.

(** The ranges in which a particle is constructed, for what a frame never
    touches. *)
Definition constructedRanges (p : Snow.Particle) : Prop :=
  exists x z s ws wo sc : R,
    fixedPart p =
      (Js.Fin x, Js.Fin z, Js.Fin s, Js.Fin ws, Js.Fin wo, Js.Fin sc) /\
    -12.5 <= x < 12.5 /\ -12.5 <= z < 12.5 /\
    0.03 <= s < 0.08 /\ 0.5 <= ws < 1.5 /\
    0 <= wo < 2 * PI /\ 0.04 <= sc < 0.1.

(** The three coordinates are real numbers. *)
Definition finiteVector (v : Vector3) : Prop :=
  exists x y z : R, v = vec3 x y z.


(** A [lookAt] for the sample runs which, as that of three.js does, answers
    no number for a position that is not real, and the yaw toward the axis
    for a real one. *)
Definition nanLookAt (p target : Vector3) : Vector3 :=
  match vx p, vy p, vz p with
  | Js.Fin x, Js.Fin _, Js.Fin z => vec3 0 (Js.atan2R x z) 0
  | _, _, _ => vec3 Js.NaN Js.NaN Js.NaN
  end.

(** * Properties *)

(** ** Arithmetic on finite numbers *)

Lemma div_fin (x y : R) : y <> 0 -> (Js.Fin x / Js.Fin y)%js = Js.Fin (x / y).
Proof.
  intros Hy. unfold Js.div.
  destruct (Req_dec_T y 0) as [E | _]; [contradiction | reflexivity].
Qed.

Lemma div_zero_zero : (Js.Fin 0 / Js.Fin 0)%js = Js.NaN.
Proof.
  unfold Js.div.
  destruct (Req_dec_T 0 0) as [_ | E]; [| contradiction E; reflexivity].
  unfold Js.scale_inf.
  destruct (total_order_T 0 0) as [[H | _] | H]; try reflexivity; lra.
Qed.

Lemma ltb_fin_true (x y : R) : x < y -> (Js.Fin x <? Js.Fin y)%js = true.
Proof.
  intros H. unfold Js.ltb.
  destruct (Rlt_dec x y); [reflexivity | contradiction].
Qed.

Lemma ltb_fin_false (x y : R) : y <= x -> (Js.Fin x <? Js.Fin y)%js = false.
Proof.
  intros H. unfold Js.ltb. destruct (Rlt_dec x y); [lra | reflexivity].
Qed.

Lemma leb_fin_true (x y : R) : x <= y -> (Js.Fin x <=? Js.Fin y)%js = true.
Proof.
  intros H. unfold Js.leb.
  destruct (Rle_dec x y); [reflexivity | contradiction].
Qed.

Lemma min_fin (x y : R) : Js.min (Js.Fin x) (Js.Fin y) = Js.Fin (Rmin x y).
Proof.
  unfold Js.min, Js.ltb, Rmin.
  destruct (Rlt_dec x y), (Rle_dec x y); try reflexivity; try lra.
  f_equal; lra.
Qed.

Lemma max_fin (x y : R) : Js.max (Js.Fin x) (Js.Fin y) = Js.Fin (Rmax x y).
Proof.
  unfold Js.max, Js.ltb, Rmax.
  destruct (Rlt_dec x y), (Rle_dec x y); try reflexivity; try lra.
  f_equal; lra.
Qed.

Lemma sqrt_fin (x : R) : 0 <= x -> Js.sqrt (Js.Fin x) = Js.Fin (sqrt x).
Proof.
  intros H. unfold Js.sqrt. destruct (Rlt_dec x 0); [lra | reflexivity].
Qed.

Lemma add_nan_r (a : Js.num) : (a + Js.NaN)%js = Js.NaN.
Proof. destruct a; reflexivity. Qed.

Lemma mul_nan_r (a : Js.num) : (a * Js.NaN)%js = Js.NaN.
Proof. destruct a; reflexivity. Qed.

Lemma within_fin (lo hi x : R) : lo <= x <= hi -> Js.within lo hi (Js.Fin x).
Proof. intros H. exists x. split; [reflexivity | exact H]. Qed.

(** Unfolds the arithmetic of finite numbers down to real arithmetic. *)
Ltac js_fin :=
  repeat first
    [ progress cbn [Js.add Js.sub Js.neg Js.mul Js.cos Js.sin Js.toNumber
                    vx vy vz cr cg cb]
    | rewrite min_fin | rewrite max_fin
    | rewrite div_fin by lra
    | rewrite sqrt_fin by lra ].

(** ** Lists of triples *)

Lemma flat_map_triples_length {A : Type} (f : nat -> list A) (m : nat) :
  (forall j, List.length (f j) = 3%nat) ->
  List.length (flat_map f (seq 0 m)) = (3 * m)%nat.
Proof.
  intros Hf. induction m as [| m IH].
  - reflexivity.
  - rewrite seq_S, flat_map_app, length_app, IH. simpl.
    rewrite length_app, Hf. simpl. lia.
Qed.

Lemma nth_error_triples {A : Type} (f : nat -> list A) (m j c : nat) :
  (forall i, List.length (f i) = 3%nat) ->
  (j < m)%nat -> (c < 3)%nat ->
  nth_error (flat_map f (seq 0 m)) (j * 3 + c) = nth_error (f j) c.
Proof.
  intros Hf. induction m as [| m IH]; intros Hj Hc.
  - lia.
  - rewrite seq_S, flat_map_app. simpl. rewrite app_nil_r.
    destruct (Nat.eq_dec j m) as [-> | Hne].
    + rewrite nth_error_app2; rewrite flat_map_triples_length by exact Hf;
        [| lia].
      f_equal. lia.
    + rewrite nth_error_app1.
      * apply IH; lia.
      * rewrite flat_map_triples_length by exact Hf. lia.
Qed.

(** ** The brush layout *)

Section LayoutFacts.

Variable rnd : nat -> R.
Variable lookAt : Vector3 -> Vector3 -> Vector3.
Variables BRUSH_COUNT LAYER_COUNT k : nat.

Let count : nat := (BRUSH_COUNT / LAYER_COUNT)%nat.

Local Abbreviation layoutAfter :=
  (layoutState rnd BRUSH_COUNT LAYER_COUNT k).

Lemma layerOf_within (l m : nat) :
  (l * count <= m)%nat -> (m < (l + 1) * count)%nat ->
  layerOf BRUSH_COUNT LAYER_COUNT m = l.
Proof.
  intros Hlo Hhi. unfold layerOf. fold count. symmetry.
  apply (Nat.div_unique m count l (m - l * count)); lia.
Qed.

Lemma brush_step (l m : nat) (st : Tree.Layout) :
  (l * count <= m)%nat -> (m < (l + 1) * count)%nat ->
  layoutAfter m st ->
  layoutAfter (S m)
    (Tree.brush rnd lookAt (Tree.yBase l) (Tree.radiusBase LAYER_COUNT l) st).
Proof.
  intros Hlo Hhi (Hi & Hd & Hp & Hr & Hs).
  unfold layoutState, Tree.brush.
  cbn [Tree.index Tree.draws Tree.pos Tree.rot Tree.sca].
  repeat split.
  - congruence.
  - lia.
  - rewrite seq_S, flat_map_app, Hp, Hd. cbn [flat_map Nat.add].
    rewrite app_nil_r. f_equal. unfold brushAt.
    rewrite (layerOf_within l m Hlo Hhi). reflexivity.
  - rewrite length_app, Hr. simpl. lia.
  - rewrite length_app, Hs. simpl. lia.
Qed.

(** The [break] never fires: the inner loop runs all its iterations. *)
Lemma brushLoop_spec (l n m : nat) (st : Tree.Layout) :
  (l * count <= m)%nat -> (m + n <= (l + 1) * count)%nat ->
  ((l + 1) * count <= BRUSH_COUNT)%nat ->
  layoutAfter m st ->
  layoutAfter (m + n)
    (Tree.brushLoop rnd lookAt BRUSH_COUNT (Tree.yBase l)
       (Tree.radiusBase LAYER_COUNT l) n st).
Proof.
  revert m st. induction n as [| n IH]; intros m st Hlo Hhi HN Hst.
  - rewrite Nat.add_0_r. exact Hst.
  - cbn [Tree.brushLoop].
    assert (Hidx : Tree.index st = m) by (destruct Hst as [H _]; exact H).
    rewrite Hidx.
    destruct (Nat.leb_spec BRUSH_COUNT m) as [Hge | _]; [lia |].
    replace (m + S n)%nat with (S m + n)%nat by lia.
    apply IH; try lia.
    apply (brush_step l m); [lia | lia | exact Hst].
Qed.

Lemma layers_spec (n l0 : nat) (st : Tree.Layout) :
  (l0 + n <= LAYER_COUNT)%nat ->
  layoutAfter (l0 * count) st ->
  layoutAfter ((l0 + n) * count)
    (fold_left (Tree.layer rnd lookAt BRUSH_COUNT LAYER_COUNT) (seq l0 n) st).
Proof.
  revert l0 st. induction n as [| n IH]; intros l0 st Hle Hst.
  - rewrite Nat.add_0_r. exact Hst.
  - cbn [seq fold_left].
    replace (l0 + S n)%nat with (S l0 + n)%nat by lia.
    apply IH; [lia |].
    unfold Tree.layer. fold count.
    replace (S l0 * count)%nat with (l0 * count + count)%nat by lia.
    apply brushLoop_spec; try lia; [| exact Hst].
    assert (LAYER_COUNT * count <= BRUSH_COUNT)%nat
      by (apply Nat.Div0.mul_div_le).
    nia.
Qed.

Lemma layout_spec :
  layoutAfter (count * LAYER_COUNT)
    (Tree.layout rnd lookAt BRUSH_COUNT LAYER_COUNT k).
Proof.
  unfold Tree.layout.
  replace (count * LAYER_COUNT)%nat with ((0 + LAYER_COUNT) * count)%nat by lia.
  apply layers_spec; [lia |].
  unfold layoutState, Tree.emptyLayout. simpl. repeat split; lia.
Qed.

End LayoutFacts.

(** *** The geometry of a layer *)

Lemma layerProgress_fin (L l : nat) :
  (2 <= L)%nat -> (l < L)%nat ->
  exists q, Tree.layerProgress L l = Js.Fin q /\ 0 <= q <= 1.
Proof.
  intros HL Hl. unfold Tree.layerProgress. cbn [Js.sub Js.neg Js.add].
  assert (H2 : 2 <= INR L) by (apply (le_INR 2); exact HL).
  assert (Hl0 : 0 <= INR l) by apply pos_INR.
  assert (Hl1 : INR l + 1 <= INR L).
  { rewrite <- S_INR. apply le_INR. lia. }
  rewrite div_fin by lra.
  eexists. split; [reflexivity |].
  match goal with |- 0 <= _ / ?e <= 1 => set (d := e) end.
  assert (Hd : 0 < d) by (unfold d; lra).
  assert (Hq : INR l / d * d = INR l) by (field; lra).
  split.
  - apply Rmult_le_reg_r with d; [exact Hd |]. rewrite Hq. lra.
  - apply Rmult_le_reg_r with d; [exact Hd |]. rewrite Hq. unfold d. lra.
Qed.

Lemma radiusBase_fin (L l : nat) :
  (2 <= L)%nat -> (l < L)%nat ->
  exists rB, Tree.radiusBase L l = Js.Fin rB /\ 0.19 <= rB <= 3.8.
Proof.
  intros HL Hl. unfold Tree.radiusBase.
  destruct (layerProgress_fin L l HL Hl) as (q & -> & Hq).
  js_fin. eexists. split; [reflexivity |]. lra.
Qed.

Lemma yBase_fin (l : nat) : Tree.yBase l = Js.Fin (-3.5 + INR l * 1.3).
Proof. reflexivity. Qed.

(** A brush of a layer with a positive finite radius lies within it. *)
Lemma brushPosition_radius (yB rB u1 u2 u3 : R) :
  0 <= u1 < 1 -> 0 < rB ->
  (Tree.horizontalRadius
     (Tree.brushPosition (Js.Fin yB) (Js.Fin rB) u1 u2 u3) <=? Js.Fin rB)%js
  = true.
Proof.
  intros Hu HrB. unfold Tree.horizontalRadius, Tree.brushPosition.
  cbn [vx vy vz]. rewrite sqrt_fin by lra. js_fin.
  set (r := sqrt u1 * rB).
  set (a := u2 * PI * 2).
  assert (Hs0 : 0 <= sqrt u1) by apply sqrt_pos.
  assert (Hs1 : sqrt u1 <= 1).
  { rewrite <- sqrt_1. apply sqrt_le_1_alt. lra. }
  assert (Hr0 : 0 <= r) by (unfold r; nra).
  assert (Hr1 : r <= rB) by (unfold r; nra).
  assert (Hsq : cos a * r * (cos a * r) + sin a * r * (sin a * r) = r * r).
  { pose proof (sin2_cos2 a) as H. unfold Rsqr in H. nra. }
  rewrite Hsq. rewrite sqrt_fin by nra.
  rewrite sqrt_square by exact Hr0.
  apply leb_fin_true. exact Hr1.
Qed.



Section LayoutResults.

Variable rnd : nat -> R.
Variable lookAt : Vector3 -> Vector3 -> Vector3.
Variables N L k : nat.

Local Abbreviation built := (Tree.layout rnd lookAt N L k).

Lemma layout_lengths :
  Tree.index built = (N / L * L)%nat /\
  List.length (Tree.pos built) = (3 * (N / L * L))%nat /\
  List.length (Tree.rot built) = (3 * (N / L * L))%nat /\
  List.length (Tree.sca built) = (3 * (N / L * L))%nat.
Proof.
  destruct (layout_spec rnd lookAt N L k) as (Hi & _ & Hp & Hr & Hs).
  repeat split; try assumption.
  rewrite Hp. apply flat_map_triples_length. reflexivity.
Qed.

Lemma layout_instances : Tree.instances built = (N / L * L)%nat.
Proof.
  unfold Tree.instances.
  destruct layout_lengths as (_ & -> & _).
  rewrite Nat.mul_comm. apply Nat.div_mul. discriminate.
Qed.

Lemma positionAt_layout (j : nat) :
  (j < N / L * L)%nat ->
  Tree.positionAt (Tree.pos built) j = Some (brushAt rnd N L k j).
Proof.
  intros Hj.
  destruct (layout_spec rnd lookAt N L k) as (_ & _ & Hp & _).
  unfold Tree.positionAt. rewrite Hp.
  replace (j * 3)%nat with (j * 3 + 0)%nat at 1 by lia.
  rewrite !nth_error_triples by (try reflexivity; lia).
  destruct (brushAt rnd N L k j). reflexivity.
Qed.

End LayoutResults.

Example brushes_per_layer :
  (Tree.BRUSH_COUNT / Tree.LAYER_COUNT)%nat = 122%nat /\
  (Tree.BRUSH_COUNT mod Tree.LAYER_COUNT)%nat = 2%nat.
Proof. split; reflexivity. Qed.


(** C1 (as amended).  For every instance count [N] and layer count [L] the
    layout generator returns (it is a total function), and its output holds
    exactly [floor(N/L) * L] instances: [N] less the remainder [N mod L],
    which is dropped, hence [N] instances exactly when [L] divides [N]. *)
Theorem layout_drops_remainder
    (rnd : nat -> R) (lookAt : Vector3 -> Vector3 -> Vector3) (N L k : nat) :
  let st := Tree.layout rnd lookAt N L k in
  Tree.instances st = (N / L * L)%nat /\
  Tree.index st = Tree.instances st /\
  (Tree.instances st + N mod L = N)%nat /\
  (Tree.instances st = N <-> N mod L = 0%nat).
Proof.
  cbv zeta. rewrite layout_instances.
  destruct (layout_lengths rnd lookAt N L k) as (Hi & _).
  pose proof (Nat.div_mod_eq N L) as Hdm.
  repeat split; try lia.
Qed.

(** C1, the claim as stated fails: with the constants of the source, 1100
    brushes in 9 layers, the output does not hold 1100 instances. *)
Lemma layout_not_exact_count :
  ~ exactCount (constStream (1 / 2)) zeroLookAt 1100 9 0.
Proof.
  unfold exactCount. rewrite layout_instances.
  intros H. vm_compute in H. discriminate H.
Qed.

(** C2 (as amended).  For every instance count [N] and every layer count
    [L] other than 1, the layout generator returns exactly
    [floor(N/L) * L] instances, every brush lies at a horizontal radius at
    most the radius [radiusBase] of its layer, and the base height [yBase]
    increases strictly with the layer index. *)
Theorem layout_contract_holds
    (rnd : nat -> R) (lookAt : Vector3 -> Vector3 -> Vector3) (N L k : nat) :
  uniform01 rnd -> L <> 1%nat -> layoutContract rnd lookAt N L k.
Proof.
  intros Hrnd HL1. unfold layoutContract. cbv zeta.
  split; [apply layout_instances |]. split.
  - intros j Hj.
    assert (HL : (2 <= L)%nat) by (destruct L as [| [| L']]; lia).
    assert (Hl : (layerOf N L j < L)%nat).
    { unfold layerOf. apply Nat.Div0.div_lt_upper_bound. lia. }
    exists (brushAt rnd N L k j). split.
    + apply positionAt_layout. exact Hj.
    + unfold brushAt. cbv zeta. rewrite yBase_fin.
      destruct (radiusBase_fin L _ HL Hl) as (rB & -> & HrB).
      apply brushPosition_radius; [apply Hrnd | lra].
  - intros l l' Hll. rewrite !yBase_fin. apply ltb_fin_true.
    apply lt_INR in Hll. lra.
Qed.

(** The constants of the source, with a constant random stream. *)
Lemma layout_contract_holds_witness :
  layoutContract (constStream (1 / 2)) zeroLookAt 1100 9 0.
Proof.
  apply layout_contract_holds.
  - intros i. unfold constStream. lra.
  - discriminate.
Defined.

Lemma radiusBase_single_layer : Tree.radiusBase 1 0 = Js.NaN.
Proof.
  assert (Hp : Tree.layerProgress 1 0 = Js.NaN).
  { unfold Tree.layerProgress.
    replace (Js.Fin (INR 1) - Js.Fin 1)%js with (Js.Fin 0)
      by (cbn; f_equal; lra).
    apply div_zero_zero. }
  unfold Tree.radiusBase. rewrite Hp. reflexivity.
Qed.

Lemma leb_nan_r (a : Js.num) : (a <=? Js.NaN)%js = false.
Proof. destruct a; reflexivity. Qed.

(** C2, the claim as stated fails: with a single layer the radius of the
    layer is [0/0], not a number, and no brush compares below it. *)
Lemma layout_contract_single_layer :
  ~ layoutContract (constStream (1 / 2)) zeroLookAt 1 1 0.
Proof.
  unfold layoutContract. cbv zeta. intros (_ & H & _).
  destruct (H 0%nat) as (p & Hp & Hle); [vm_compute; lia |].
  replace (layerOf 1 1 0) with 0%nat in Hle by reflexivity.
  rewrite radiusBase_single_layer, leb_nan_r in Hle. discriminate Hle.
Qed.

(** ** The loops that read the layout *)

Lemma nth_error_map_seq {A : Type} (f : nat -> A) (n i : nat) :
  (i < n)%nat -> nth_error (map f (seq 0 n)) i = Some (f i).
Proof.
  intros Hi. rewrite nth_error_map, nth_error_seq.
  destruct (Nat.ltb_spec i n) as [_ | Hge]; [reflexivity | lia].
Qed.

Lemma read3_beyond (a : list Js.num) (i : nat) :
  (List.length a <= i * 3)%nat -> Tree.read3 a i = (None, None, None).
Proof.
  intros H. unfold Tree.read3.
  repeat match goal with
         | |- context [nth_error a ?n] =>
             replace (nth_error a n) with (@None Js.num)
               by (symmetry; apply nth_error_None; lia)
         end.
  reflexivity.
Qed.

Lemma read3_inside (a : list Js.num) (i : nat) :
  (i * 3 + 2 < List.length a)%nat ->
  exists x y z, Tree.read3 a i = (Some x, Some y, Some z).
Proof.
  intros H. unfold Tree.read3.
  destruct (nth_error a (i * 3)) as [x |] eqn:Ex;
    [| apply nth_error_None in Ex; lia].
  destruct (nth_error a (i * 3 + 1)) as [y |] eqn:Ey;
    [| apply nth_error_None in Ey; lia].
  destruct (nth_error a (i * 3 + 2)) as [z |] eqn:Ez;
    [| apply nth_error_None in Ez; lia].
  exists x, y, z. reflexivity.
Qed.

Lemma lerpColors_nan (c1 c2 : Color) :
  lerpColors c1 c2 Js.NaN = rgb Js.NaN Js.NaN Js.NaN.
Proof.
  unfold lerpColors. rewrite !mul_nan_r, !add_nan_r. reflexivity.
Qed.

(** The colour of a slot whose height reads [undefined]. *)
Lemma brushColor_undefined (lo hi snow : Color) (u : R) :
  Tree.brushColor lo hi snow (Tree.heightFactor (Js.toNumber None) u)
  = rgb Js.NaN Js.NaN Js.NaN.
Proof.
  unfold Tree.brushColor, Tree.heightFactor. cbn. apply lerpColors_nan.
Qed.


(** C10.  With the constants of the source (1100 brushes, 9 layers) the
    three arrays hold the coordinates of [floor(1100/9) * 9 = 1098]
    instances only, while the loop that initialises the matrices and the loop
    that assigns the colours both run over all 1100 slots: at the slots 1098
    and 1099 every array read is past the end, so that the transform is
    made of undefined values and the colour is not a number; the slots below
    1098 read defined values. *)
Theorem last_two_slots_undefined
    (rnd : nat -> R) (lookAt : Vector3 -> Vector3 -> Vector3)
    (parseColor : string -> Color) (themeName : ThemeKey) (k k' : nat) :
  let st := Tree.layout rnd lookAt Tree.BRUSH_COUNT Tree.LAYER_COUNT k in
  let matrices := Tree.initGeometry (Tree.pos st) (Tree.rot st) (Tree.sca st) in
  let colors := Tree.updateColors rnd parseColor themeName (Tree.pos st) k' in
  Tree.instances st = 1098%nat /\
  List.length (Tree.pos st) = (3 * 1098)%nat /\
  List.length (Tree.rot st) = (3 * 1098)%nat /\
  List.length (Tree.sca st) = (3 * 1098)%nat /\
  List.length matrices = 1100%nat /\
  List.length colors = 1100%nat /\
  Forall (fun i =>
            nth_error matrices i = Some undefinedTransform /\
            nth_error (Tree.pos st) (i * 3 + 1) = None /\
            nth_error colors i = Some (rgb Js.NaN Js.NaN Js.NaN))
         [1098; 1099]%nat /\
  Forall (fun i =>
            exists t, nth_error matrices i = Some t /\ definedTransform t)
         (seq 0 1098).
Proof.
  cbv zeta.
  set (st := Tree.layout rnd lookAt Tree.BRUSH_COUNT Tree.LAYER_COUNT k).
  destruct (layout_lengths rnd lookAt Tree.BRUSH_COUNT Tree.LAYER_COUNT k)
    as (_ & Hp & Hr & Hs).
  fold st in Hp, Hr, Hs.
  change (Tree.BRUSH_COUNT / Tree.LAYER_COUNT * Tree.LAYER_COUNT)%nat
    with 1098%nat in Hp, Hr, Hs.
  assert (Hslot : forall i, (1098 <= i < 1100)%nat ->
    nth_error (Tree.initGeometry (Tree.pos st) (Tree.rot st) (Tree.sca st)) i
      = Some undefinedTransform /\
    nth_error (Tree.pos st) (i * 3 + 1) = None /\
    nth_error (Tree.updateColors rnd parseColor themeName (Tree.pos st) k') i
      = Some (rgb Js.NaN Js.NaN Js.NaN)).
  { intros i Hi.
    assert (Hy : nth_error (Tree.pos st) (i * 3 + 1) = None)
      by (apply nth_error_None; lia).
    repeat split.
    - unfold Tree.initGeometry.
      rewrite nth_error_map_seq by (unfold Tree.BRUSH_COUNT; lia).
      rewrite !read3_beyond by lia. reflexivity.
    - exact Hy.
    - unfold Tree.updateColors. cbv zeta.
      rewrite nth_error_map_seq by (unfold Tree.BRUSH_COUNT; lia).
      rewrite Hy, brushColor_undefined. reflexivity. }
  split; [apply layout_instances |].
  repeat (split; [assumption |]).
  split; [unfold Tree.initGeometry; rewrite length_map, length_seq;
          reflexivity |].
  split; [unfold Tree.updateColors; cbv zeta;
          rewrite length_map, length_seq; reflexivity |].
  split.
  - repeat constructor; apply Hslot; lia.
  - apply Forall_forall. intros i Hi. apply in_seq in Hi.
    unfold Tree.initGeometry.
    rewrite nth_error_map_seq by (unfold Tree.BRUSH_COUNT; lia).
    eexists. split; [reflexivity |].
    unfold definedTransform. cbn [Tree.tPosition Tree.tRotation Tree.tScale].
    repeat split; apply read3_inside; lia.
Qed.

(** ** The brush colours *)

Lemma lerpColors_fin (r1 g1 b1 r2 g2 b2 a : R) :
  lerpColors (rgb r1 g1 b1) (rgb r2 g2 b2) a =
  rgb (r1 + (r2 - r1) * a)%R (g1 + (g2 - g1) * a)%R (b1 + (b2 - b1) * a)%R.
Proof. reflexivity. Qed.

Lemma inGamut_fin (c : Color) :
  inGamut c ->
  exists r g b, c = rgb (Js.Fin r) (Js.Fin g) (Js.Fin b) /\
                0 <= r <= 1 /\ 0 <= g <= 1 /\ 0 <= b <= 1.
Proof.
  destruct c as [r g b]. intros ((x & Ex & Hx) & (y & Ey & Hy) & (z & Ez & Hz)).
  cbn [cr cg cb] in *. subst. exists x, y, z. repeat split; lra.
Qed.


Lemma brushColor_low (lo hi snow : Color) (t : R) :
  t < 0.65 -> Tree.brushColor lo hi snow t = lerpColors lo hi (t / 0.65)%R.
Proof.
  intros Ht. unfold Tree.brushColor.
  rewrite ltb_fin_true by exact Ht. cbv zeta. rewrite div_fin by lra.
  reflexivity.
Qed.

Lemma brushColor_high (lo hi snow : Color) (t : R) :
  0.65 <= t ->
  Tree.brushColor lo hi snow t =
  lerpColors hi snow ((t - 0.65) / 0.35 * 0.7)%R.
Proof.
  intros Ht. unfold Tree.brushColor.
  rewrite ltb_fin_false by exact Ht. cbv zeta. js_fin.
  reflexivity.
Qed.


(** The sample colour parser yields colours in gamut. *)
Lemma hexDigit_bound (c : ascii) (h : N) :
  hexDigit c = Some h -> (h <= 15)%N.
Proof.
  unfold hexDigit. cbv zeta.
  destruct (N.leb_spec 48 (N_of_ascii c)), (N.leb_spec (N_of_ascii c) 57);
    cbn [andb];
    destruct (N.leb_spec 97 (N_of_ascii c)), (N.leb_spec (N_of_ascii c) 102);
    cbn [andb];
    destruct (N.leb_spec 65 (N_of_ascii c)), (N.leb_spec (N_of_ascii c) 70);
    cbn [andb]; intros E; inversion E; lia.
Qed.

Lemma hexByte_bound (a b : ascii) (n : N) :
  hexByte a b = Some n -> (n <= 255)%N.
Proof.
  unfold hexByte.
  destruct (hexDigit a) as [h |] eqn:Ea; [| discriminate].
  destruct (hexDigit b) as [l |] eqn:Eb; [| discriminate].
  apply hexDigit_bound in Ea. apply hexDigit_bound in Eb.
  intros E. replace n with (16 * h + l)%N by congruence. lia.
Qed.

Lemma channel_within (n : N) : (n <= 255)%N -> Js.within 0 1 (channel n).
Proof.
  intros Hn. unfold channel. apply within_fin.
  assert (H0 : 0 <= IZR (Z.of_N n)) by (apply IZR_le; lia).
  assert (H1 : IZR (Z.of_N n) <= 255) by (apply IZR_le; lia).
  lra.
Qed.

Lemma black_gamut : inGamut (rgb 0 0 0).
Proof. repeat split; apply within_fin; lra. Qed.

Lemma hexColor_gamut (hex : string) : inGamut (hexColor hex).
Proof.
  unfold hexColor.
  destruct (list_ascii_of_string hex) as [| h [| r1 [| r2 [| g1 [| g2 [| b1
    [| b2 [| ? ?]]]]]]]]; try apply black_gamut.
  destruct (Ascii.eqb h "#"); [| apply black_gamut].
  destruct (hexByte r1 r2) as [r |] eqn:Er; [| apply black_gamut].
  destruct (hexByte g1 g2) as [g |] eqn:Eg; [| apply black_gamut].
  destruct (hexByte b1 b2) as [b |] eqn:Eb; [| apply black_gamut].
  repeat split; cbn [cr cg cb]; apply channel_within;
    eapply hexByte_bound; eassumption.
Qed.

Lemma hexColor_white : hexColor "#ffffff" = rgb 1 1 1.
Proof.
  unfold hexColor. cbn. unfold channel. cbn.
  f_equal; f_equal; lra.
Qed.

Lemma lerpColors_reaches_target (c1 c2 : Color) (f : R) :
  inGamut c1 -> inGamut c2 -> f <= 0.7 ->
  lerpColors c1 c2 f = c2 -> c1 = c2.
Proof.
  intros H1 H2 Hf.
  destruct (inGamut_fin c1 H1) as (r1 & g1 & b1 & -> & _).
  destruct (inGamut_fin c2 H2) as (r2 & g2 & b2 & -> & _).
  rewrite lerpColors_fin. intros [= Hr Hg Hb].
  assert (Hz : forall x y, x + (y - x) * f = y -> x = y).
  { intros x y E.
    assert (Hp : (x - y) * (1 - f) = 0) by lra.
    apply Rmult_integral in Hp. destruct Hp; lra. }
  rewrite (Hz _ _ Hr), (Hz _ _ Hg), (Hz _ _ Hb). reflexivity.
Qed.

(** C3 (as amended).  For every theme and every clamped height factor [t]
    in [0, 1], the colour of the brush is the linear interpolation from
    [lowColor] to [highColor] at the fraction [t / 0.65] when [t < 0.65],
    and otherwise the linear interpolation from [highColor] to white at the
    fraction [((t - 0.65) / 0.35) * 0.7]; that fraction never exceeds 0.7, so
    that the tips reach pure white only in a theme whose [highColor] is
    white itself. *)
Theorem brush_color_two_segments
    (parseColor : string -> Color) (themeName : ThemeKey) (t : R) :
  (forall hex, inGamut (parseColor hex)) ->
  0 <= t <= 1 ->
  let lowColor := parseColor (leavesLow (THEMES themeName)) in
  let highColor := parseColor (leavesHigh (THEMES themeName)) in
  let snow := parseColor "#ffffff" in
  let c := Tree.brushColor lowColor highColor snow t in
  (t < 0.65 -> c = lerpColors lowColor highColor (t / 0.65)%R) /\
  (0.65 <= t ->
     c = lerpColors highColor snow ((t - 0.65) / 0.35 * 0.7)%R /\
     (t - 0.65) / 0.35 * 0.7 <= 0.7 /\
     (c = snow -> highColor = snow)).
Proof.
  intros Hgamut Ht. cbv zeta. split.
  - apply brushColor_low.
  - intros Hge.
    assert (Hf : (t - 0.65) / 0.35 * 0.7 <= 0.7) by lra.
    rewrite brushColor_high by exact Hge.
    repeat split; [exact Hf |].
    apply lerpColors_reaches_target; [apply Hgamut | apply Hgamut | exact Hf].
Qed.

(** The theme [green] at the height factor 4/5. *)
Lemma brush_color_two_segments_witness :
  Tree.brushColor (hexColor "#15803d") (hexColor "#4ade80")
                  (hexColor "#ffffff") (Js.Fin (4 / 5))
  = lerpColors (hexColor "#4ade80") (hexColor "#ffffff")
      ((4 / 5 - 0.65) / 0.35 * 0.7)%R /\
  (4 / 5 - 0.65) / 0.35 * 0.7 <= 0.7 /\
  (Tree.brushColor (hexColor "#15803d") (hexColor "#4ade80")
                   (hexColor "#ffffff") (Js.Fin (4 / 5))
   = hexColor "#ffffff" -> hexColor "#4ade80" = hexColor "#ffffff").
Proof.
  apply (brush_color_two_segments hexColor green (4 / 5));
    [apply hexColor_gamut | lra | lra].
Defined.

(** C3, the claim as stated fails: in the theme [white] the high colour is
    white itself, and a brush with height factor 1 is pure white. *)
Lemma brush_color_white_theme : ~ gradientContract hexColor white 1.
Proof.
  unfold gradientContract. cbv zeta. intros (_ & H).
  destruct H as (_ & _ & Hne); [lra |].
  apply Hne. rewrite brushColor_high by lra.
  cbn [THEMES leavesHigh]. rewrite hexColor_white, lerpColors_fin.
  f_equal; f_equal; lra.
Qed.







(** ** The ribbon curve *)

Lemma controlPoint_helix (i : nat) : Ribbon.controlPoint i = helixPoint i.
Proof.
  unfold Ribbon.controlPoint, helixPoint, Ribbon.segments, Ribbon.turns,
    Ribbon.hStart, Ribbon.hEnd. cbv zeta.
  assert (H200 : INR 200 = 200) by (rewrite INR_IZR_INZ; reflexivity).
  rewrite H200. js_fin.
  f_equal; f_equal; try (f_equal; f_equal); field.
Qed.

Lemma cos_7PI : cos (7 * PI) = -1.
Proof.
  replace (7 * PI) with (PI + 2 * INR 3 * PI) by (simpl; lra).
  rewrite cos_period. apply cos_PI.
Qed.

Lemma sin_7PI : sin (7 * PI) = 0.
Proof.
  replace (7 * PI) with (PI + 2 * INR 3 * PI) by (simpl; lra).
  rewrite sin_period. apply sin_PI.
Qed.

(** C6.  The curve builder produces 201 control points; the point number
    [i] is [(cos(a) * r, h, sin(a) * r)] with [t = i / 200],
    [a = t * 2 * PI * 3.5], [h = -3.2 + t * (5.8 - (-3.2))] and
    [r = 3.7 * (1 - t) + 0.3]; the first point, at [t = 0], has the base
    radius 4 and the base height -3.2, and the last one, at [t = 1], the top
    radius 0.3 and the top height 5.8. *)
Theorem curve_control_points :
  List.length Ribbon.points = 201%nat /\
  Ribbon.points = map helixPoint (seq 0 201) /\
  nth_error Ribbon.points 0 = Some (vec3 4 (-3.2) 0) /\
  Tree.horizontalRadius (vec3 4 (-3.2) 0) = Js.Fin 4 /\
  nth_error Ribbon.points 200 = Some (vec3 (-0.3) 5.8 0) /\
  Tree.horizontalRadius (vec3 (-0.3) 5.8 0) = Js.Fin 0.3.
Proof.
  assert (Hpts : Ribbon.points = map helixPoint (seq 0 201)).
  { unfold Ribbon.points. apply map_ext. exact controlPoint_helix. }
  split; [unfold Ribbon.points; rewrite length_map, length_seq; reflexivity |].
  split; [exact Hpts |].
  split; [| split; [| split]].
  - rewrite Hpts, nth_error_map_seq by lia.
    unfold helixPoint. cbv zeta. change (INR 0) with 0.
    replace (0 / 200 * (2 * PI) * 3.5) with 0 by lra.
    rewrite cos_0, sin_0. do 2 f_equal; f_equal; lra.
  - unfold Tree.horizontalRadius. js_fin.
    replace (4 * 4 + 0 * 0) with (4 * 4) by lra.
    rewrite sqrt_square by lra. reflexivity.
  - rewrite Hpts, nth_error_map_seq by lia.
    unfold helixPoint. cbv zeta.
    assert (H200 : INR 200 = 200) by (rewrite INR_IZR_INZ; reflexivity).
    rewrite H200.
    replace (200 / 200 * (2 * PI) * 3.5) with (7 * PI) by lra.
    rewrite cos_7PI, sin_7PI. do 2 f_equal; f_equal; lra.
  - unfold Tree.horizontalRadius. js_fin.
    replace (-0.3 * -0.3 + 0 * 0) with (0.3 * 0.3) by lra.
    rewrite sqrt_square by lra. reflexivity.
Qed.

(** ** The ribbon text *)

Lemma length_repeatString (s : Ribbon.jsString) (n : nat) :
  List.length (Ribbon.repeatString s n) = (n * List.length s)%nat.
Proof.
  induction n as [| n IH]; [reflexivity |].
  cbn [Ribbon.repeatString]. rewrite length_app, IH. lia.
Qed.

Lemma nth_error_repeatString (s : Ribbon.jsString) (n i : nat) :
  (i < n * List.length s)%nat ->
  nth_error (Ribbon.repeatString s n) i = nth_error s (i mod List.length s).
Proof.
  revert i. induction n as [| n IH]; intros i Hi; [lia |].
  cbn [Ribbon.repeatString].
  destruct (Nat.lt_ge_cases i (List.length s)) as [Hlt | Hge].
  - rewrite nth_error_app1 by exact Hlt.
    rewrite Nat.mod_small by exact Hlt. reflexivity.
  - rewrite nth_error_app2 by exact Hge.
    rewrite IH by lia. f_equal.
    replace i with ((i - List.length s) + 1 * List.length s)%nat at 2 by lia.
    rewrite Nat.Div0.mod_add. reflexivity.
Qed.

Lemma ceilDiv_covers (a b : nat) :
  (0 < b)%nat -> (a <= Ribbon.ceilDiv a b * b)%nat.
Proof.
  intros Hb. unfold Ribbon.ceilDiv.
  pose proof (Nat.div_mod_eq a b) as Hdm.
  pose proof (Nat.mod_upper_bound a b ltac:(lia)) as Hm.
  destruct (Nat.eqb_spec (a mod b) 0) as [E | _]; nia.
Qed.

Lemma baseString_length (text : Ribbon.jsString) :
  List.length (text ++ Ribbon.separator) = (List.length text + 7)%nat.
Proof. rewrite length_app. reflexivity. Qed.

Lemma chars_length (text : Ribbon.jsString) :
  List.length (Ribbon.chars text) = 140%nat.
Proof.
  unfold Ribbon.chars. cbv zeta.
  rewrite length_firstn, length_repeatString.
  pose proof (ceilDiv_covers Ribbon.totalCharsNeeded
                (List.length (text ++ Ribbon.separator))) as H.
  rewrite baseString_length in *.
  unfold Ribbon.totalCharsNeeded in *. lia.
Qed.

Lemma chars_nth_error (text : Ribbon.jsString) (i : nat) :
  (i < 140)%nat ->
  nth_error (Ribbon.chars text) i =
  nth_error (text ++ Ribbon.separator)
            (i mod List.length (text ++ Ribbon.separator)).
Proof.
  intros Hi. unfold Ribbon.chars. cbv zeta.
  rewrite nth_error_firstn.
  destruct (Nat.ltb_spec i Ribbon.totalCharsNeeded) as [_ | Hge];
    [| unfold Ribbon.totalCharsNeeded in Hge; lia].
  apply nth_error_repeatString.
  pose proof (ceilDiv_covers Ribbon.totalCharsNeeded
                (List.length (text ++ Ribbon.separator))) as H.
  rewrite baseString_length in *.
  unfold Ribbon.totalCharsNeeded in *. lia.
Qed.

Lemma nth_error_combine_seq {A : Type} (l : list A) (a i : nat) (c : A) :
  nth_error l i = Some c ->
  nth_error (combine (seq a (List.length l)) l) i = Some ((a + i)%nat, c).
Proof.
  revert a i. induction l as [| x l IH]; intros a i Hi.
  - destruct i; discriminate Hi.
  - destruct i as [| i]; cbn [List.length seq combine nth_error] in *.
    + injection Hi as ->. rewrite Nat.add_0_r. reflexivity.
    + rewrite (IH (S a) i Hi). f_equal. f_equal. lia.
Qed.

Lemma map_snd_combine_seq {A : Type} (l : list A) (a : nat) :
  map snd (combine (seq a (List.length l)) l) = l.
Proof.
  revert a. induction l as [| x l IH]; intros a; [reflexivity |].
  cbn [List.length seq combine map snd]. rewrite IH. reflexivity.
Qed.

Example ceilDiv_example : Ribbon.ceilDiv 140 9 = 16%nat.
Proof. reflexivity. Qed.

Example chars_example :
  firstn 10 (Ribbon.chars (Ribbon.ofAscii "HI")) =
  [72; 73; 32; 32; 32; 9733; 32; 32; 32; 72]%N.
Proof. vm_compute. reflexivity. Qed.

Section TextFacts.

Variable getPointAt : list Vector3 -> Js.num -> Vector3.

Lemma textLayout_nonempty (text : Ribbon.jsString) :
  text <> [] ->
  Ribbon.textLayout getPointAt text =
  map (fun ic =>
         Ribbon.place getPointAt ((Ribbon.endT - Ribbon.startT) / INR 140)%js
                      (fst ic) (snd ic))
      (combine (seq 0 140) (Ribbon.chars text)).
Proof.
  intros Hne. unfold Ribbon.textLayout.
  destruct text as [| c text]; [contradiction |].
  cbv zeta. rewrite chars_length. reflexivity.
Qed.

Lemma textLayout_chars (text : Ribbon.jsString) :
  text <> [] ->
  map Ribbon.char (Ribbon.textLayout getPointAt text) = Ribbon.chars text.
Proof.
  intros Hne. rewrite textLayout_nonempty by exact Hne.
  rewrite map_map. cbn [Ribbon.place Ribbon.char].
  rewrite <- (chars_length text) at 1.
  change (fun x : nat * N => snd x) with (@snd nat N).
  apply map_snd_combine_seq.
Qed.

End TextFacts.

Lemma glyphT_range (i : nat) : (i < 140)%nat -> 0.001 <= glyphT i <= 0.999.
Proof.
  intros Hi. unfold glyphT.
  assert (H0 : 0 <= INR i) by apply pos_INR.
  assert (H1 : INR i <= 139).
  { replace 139 with (INR 139) by (rewrite INR_IZR_INZ; reflexivity).
    apply le_INR. lia. }
  lra.
Qed.

Lemma clampT_glyphT (i : nat) : (i < 140)%nat -> clampT (glyphT i) = glyphT i.
Proof.
  intros Hi. pose proof (glyphT_range i Hi) as H. unfold clampT.
  rewrite Rmax_right by lra. rewrite Rmin_right by lra. reflexivity.
Qed.

Lemma glyphT_decreasing (i j : nat) : (i < j)%nat -> glyphT j < glyphT i.
Proof.
  intros Hij. apply lt_INR in Hij. unfold glyphT. lra.
Qed.

Lemma place_glyph (getPointAt : list Vector3 -> Js.num -> Vector3)
    (i : nat) (c : N) :
  let point := getPointAt Ribbon.points (Js.Fin (clampT (glyphT i))) in
  Ribbon.place getPointAt ((Ribbon.endT - Ribbon.startT) / INR 140)%js i c =
  Ribbon.mkGlyph c point (vec3 0 (Js.atan2 (vx point) (vz point)) 0).
Proof.
  cbv zeta. unfold Ribbon.place, Ribbon.endT, Ribbon.startT. cbv zeta.
  assert (H140 : INR 140 = 140) by (rewrite INR_IZR_INZ; reflexivity).
  rewrite H140. js_fin.
  match goal with
  | |- context [getPointAt _ (Js.Fin ?a)] =>
      replace a with (clampT (glyphT i))
        by (unfold clampT, glyphT; f_equal; f_equal; lra)
  end.
  reflexivity.
Qed.

(** C4.  The text placer returns the empty sequence for the empty string;
    for any other text it appends the separator, repeats the combined
    string often enough to reach 140 characters, cuts the result at 140 and
    returns exactly 140 glyphs, whose characters are those of the combined
    string taken cyclically. *)
Theorem text_layout_fills_ribbon
    (getPointAt : list Vector3 -> Js.num -> Vector3) :
  Ribbon.textLayout getPointAt [] = [] /\
  (forall text : Ribbon.jsString, text <> [] ->
     let baseString := text ++ Ribbon.separator in
     let times := Ribbon.ceilDiv 140 (List.length baseString) in
     (140 <= List.length (Ribbon.repeatString baseString times))%nat /\
     map Ribbon.char (Ribbon.textLayout getPointAt text) =
       firstn 140 (Ribbon.repeatString baseString times) /\
     List.length (Ribbon.textLayout getPointAt text) = 140%nat /\
     (forall i, (i < 140)%nat ->
        nth_error (map Ribbon.char (Ribbon.textLayout getPointAt text)) i =
        nth_error baseString (i mod List.length baseString))).
Proof.
  split; [reflexivity |].
  intros text Hne. cbv zeta.
  assert (Hchars := textLayout_chars getPointAt text Hne).
  repeat split.
  - rewrite length_repeatString. apply ceilDiv_covers.
    rewrite baseString_length. lia.
  - rewrite Hchars. reflexivity.
  - rewrite <- (length_map Ribbon.char), Hchars. apply chars_length.
  - intros i Hi. rewrite Hchars. apply chars_nth_error. exact Hi.
Qed.

(** The text "HI": 140 glyphs, of which the first two read "H" and "I". *)
Lemma text_layout_fills_ribbon_witness :
  List.length (Ribbon.textLayout firstPoint (Ribbon.ofAscii "HI"))
  = 140%nat /\
  nth_error
    (map Ribbon.char (Ribbon.textLayout firstPoint (Ribbon.ofAscii "HI"))) 0
  = Some 72%N /\
  nth_error
    (map Ribbon.char (Ribbon.textLayout firstPoint (Ribbon.ofAscii "HI"))) 1
  = Some 73%N.
Proof.
  destruct (text_layout_fills_ribbon firstPoint) as (_ & H).
  destruct (H (Ribbon.ofAscii "HI")) as (_ & _ & Hlen & Hnth);
    [discriminate |].
  split; [exact Hlen |].
  split; [apply (Hnth 0%nat); lia | apply (Hnth 1%nat); lia].
Defined.

(** C5.  For every non-empty text and every glyph index [i] below 140, the
    glyph is placed at the point of the curve with parameter
    [t = 0.98 - i * ((0.98 - 0.02) / 140)] clamped into [0.001, 0.999] (which
    leaves [t] as it is), with yaw [atan2(point.x, point.z)]; [t] decreases as
    the index grows, so that the characters walk backward along the curve,
    from its top; and for the text "MERRY CHRISTMAS" the first 23 glyphs
    read "MERRY CHRISTMAS   ★   M". *)
Theorem glyphs_walk_back_along_curve
    (getPointAt : list Vector3 -> Js.num -> Vector3) :
  (forall (text : Ribbon.jsString) (i : nat),
     text <> [] -> (i < 140)%nat ->
     let point := getPointAt Ribbon.points (Js.Fin (clampT (glyphT i))) in
     exists c,
       nth_error (Ribbon.chars text) i = Some c /\
       nth_error (Ribbon.textLayout getPointAt text) i =
         Some (Ribbon.mkGlyph c point
                 (vec3 0 (Js.atan2 (vx point) (vz point)) 0))) /\
  (forall i, (i < 140)%nat ->
     0.001 <= glyphT i <= 0.999 /\ clampT (glyphT i) = glyphT i) /\
  (forall i j, (i < j)%nat -> glyphT j < glyphT i) /\
  map Ribbon.char
      (firstn 23 (Ribbon.textLayout getPointAt
                    (Ribbon.ofAscii "MERRY CHRISTMAS"))) =
    Ribbon.ofAscii "MERRY CHRISTMAS" ++ Ribbon.separator ++ Ribbon.ofAscii "M".
Proof.
  split; [| split; [| split]].
  - intros text i Hne Hi. cbv zeta.
    destruct (nth_error (Ribbon.chars text) i) as [c |] eqn:Ec.
    + exists c. split; [reflexivity |].
      rewrite textLayout_nonempty by exact Hne.
      rewrite nth_error_map.
      rewrite <- (chars_length text) at 1.
      rewrite (nth_error_combine_seq _ 0 i c Ec).
      cbn [option_map fst snd Nat.add]. f_equal. apply place_glyph.
    + apply nth_error_None in Ec. rewrite chars_length in Ec. lia.
  - intros i Hi. split; [apply glyphT_range | apply clampT_glyphT]; exact Hi.
  - apply glyphT_decreasing.
  - rewrite <- firstn_map, textLayout_chars by discriminate.
    vm_compute. reflexivity.
Qed.

(** The first glyph of the text "HI". *)
Lemma glyphs_walk_back_along_curve_witness :
  exists c,
    nth_error (Ribbon.chars (Ribbon.ofAscii "HI")) 0 = Some c /\
    nth_error (Ribbon.textLayout firstPoint (Ribbon.ofAscii "HI")) 0 =
      Some (Ribbon.mkGlyph c
              (firstPoint Ribbon.points (Js.Fin (clampT (glyphT 0))))
              (vec3 0
                 (Js.atan2
                    (vx (firstPoint Ribbon.points
                           (Js.Fin (clampT (glyphT 0)))))
                    (vz (firstPoint Ribbon.points
                           (Js.Fin (clampT (glyphT 0))))))
                 0)).
Proof.
  apply (proj1 (glyphs_walk_back_along_curve firstPoint)
           (Ribbon.ofAscii "HI") 0%nat);
    [discriminate | lia].
Defined.

(** ** The snow *)

Lemma run_map (times : list Js.num) (ps : list Snow.Particle) :
  Snow.run times ps = map (Nat.iter (List.length times) Snow.fall) ps.
Proof.
  unfold Snow.run. revert ps.
  induction times as [| time times IH]; intros ps.
  - cbn. symmetry. apply map_id.
  - cbn [fold_left Snow.frame fst List.length]. rewrite IH, map_map.
    apply map_ext. intros p. rewrite Nat.iter_succ_r. reflexivity.
Qed.

Lemma newParticle_falling (rnd : nat -> R) (k : nat) :
  uniform01 rnd ->
  exists s v, falling s v (Snow.newParticle rnd k) /\
              0.03 <= s <= 0.08 /\ 0 <= v < 20.
Proof.
  intros Hrnd. unfold falling, Snow.newParticle. js_fin.
  eexists. eexists. split; [split; reflexivity |].
  pose proof (Hrnd (k + 1)%nat). pose proof (Hrnd (k + 3)%nat). lra.
Qed.

Lemma fall_falling (s v : R) (p : Snow.Particle) :
  falling s v p -> 0.03 <= s ->
  exists v', falling s v' (Snow.fall p) /\
             -5 <= v' /\ v' <= Rmax 15 (v - 0.03).
Proof.
  intros (Hs & Hv) Hs0. unfold falling, Snow.fall. cbv zeta.
  rewrite Hs, Hv. js_fin.
  assert (Hmax : 15 <= Rmax 15 (v - 0.03)) by apply Rmax_l.
  assert (Hmax' : v - 0.03 <= Rmax 15 (v - 0.03)) by apply Rmax_r.
  destruct (Rlt_dec (v + - s) (-5)) as [Hlt | Hge].
  - rewrite ltb_fin_true by exact Hlt.
    exists 15. repeat split; lra.
  - rewrite ltb_fin_false by lra.
    exists (v + - s). repeat split; lra.
Qed.

Lemma falls_falling (n : nat) (s v : R) (p : Snow.Particle) :
  falling s v p -> 0.03 <= s -> -5 <= v ->
  exists v', falling s v' (Nat.iter n Snow.fall p) /\
             -5 <= v' /\ v' <= Rmax 15 (v - 0.03 * INR n).
Proof.
  intros Hp Hs Hv. induction n as [| n (w & Hw & Hlo & Hhi)].
  - exists v. cbn [Nat.iter INR]. repeat split; try apply Hp; try lra.
    replace (v - 0.03 * 0) with v by lra. apply Rmax_r.
  - destruct (fall_falling s w _ Hw Hs) as (w' & Hw' & Hlo' & Hhi').
    exists w'. cbn [Nat.iter]. repeat split; try apply Hw'; try lra.
    rewrite S_INR.
    revert Hhi Hhi'. unfold Rmax.
    repeat match goal with
           | |- context [Rle_dec ?a ?b] => destruct (Rle_dec a b)
           end;
      lra.
Qed.

(** C7 (as amended).  Whatever the frames, the number of particles never
    changes (it stays 800, also through a frame without mesh), and after
    any number of updates every stored height is a real number within
    [-5, 20]: the initial heights are drawn from [0, 20) and a height below -5
    is reset to 15; after at least 167 updates every stored height lies
    within [-5, 15]. *)
Theorem snow_count_and_heights
    (rnd : nat -> R) (k : nat) (times : list Js.num) :
  uniform01 rnd ->
  let ps := Snow.run times (Snow.particles rnd k) in
  List.length ps = List.length (Snow.particles rnd k) /\
  List.length ps = 800%nat /\
  (forall mesh time qs,
     List.length (fst (Snow.frame mesh time qs)) = List.length qs) /\
  Forall (Snow.heightWithin (-5) 20) ps /\
  ((167 <= List.length times)%nat -> Forall (Snow.heightWithin (-5) 15) ps).
Proof.
  intros Hrnd. cbv zeta. rewrite run_map.
  assert (Hlen : List.length (Snow.particles rnd k) = 800%nat).
  { unfold Snow.particles. rewrite length_map, length_seq. reflexivity. }
  assert (Hall : forall p, In p (Snow.particles rnd k) ->
    exists v, vy (Snow.position (Nat.iter (List.length times) Snow.fall p))
              = Js.Fin v /\
              -5 <= v <= 20 /\
              ((167 <= List.length times)%nat -> v <= 15)).
  { intros p Hin. unfold Snow.particles in Hin.
    apply in_map_iff in Hin. destruct Hin as (i & <- & _).
    destruct (newParticle_falling rnd (k + 7 * i) Hrnd)
      as (s & v & Hp & Hs & Hv).
    destruct (falls_falling (List.length times) s v _ Hp)
      as (w & Hw & Hlo & Hhi); [lra | lra |].
    exists w. split; [apply Hw |].
    assert (Hn : 0 <= INR (List.length times)) by apply pos_INR.
    split.
    - revert Hhi. unfold Rmax. destruct (Rle_dec _ _); lra.
    - intros H167. apply le_INR in H167.
      replace (INR 167) with 167 in H167 by (rewrite INR_IZR_INZ; reflexivity).
      revert Hhi. unfold Rmax. destruct (Rle_dec _ _); lra. }
  split; [rewrite length_map; reflexivity |].
  split; [rewrite length_map; exact Hlen |].
  split; [intros [|] time qs; cbn [Snow.frame fst];
          [apply length_map | reflexivity] |].
  split.
  - apply Forall_forall. intros q Hq. apply in_map_iff in Hq.
    destruct Hq as (p & <- & Hin).
    destruct (Hall p Hin) as (v & Hv & Hr & _).
    exists v. split; [exact Hv | exact Hr].
  - intros H167. apply Forall_forall. intros q Hq. apply in_map_iff in Hq.
    destruct Hq as (p & <- & Hin).
    destruct (Hall p Hin) as (v & Hv & Hr & H15).
    exists v. split; [exact Hv |]. specialize (H15 H167). lra.
Qed.

(** Two frames on the particles drawn from a constant stream. *)
Lemma snow_count_and_heights_witness :
  List.length (Snow.run [Js.Fin 0; Js.Fin 1]
                 (Snow.particles (constStream (1 / 2)) 0)) = 800%nat /\
  Forall (Snow.heightWithin (-5) 20)
         (Snow.run [Js.Fin 0; Js.Fin 1]
            (Snow.particles (constStream (1 / 2)) 0)).
Proof.
  destruct (snow_count_and_heights (constStream (1 / 2)) 0
              [Js.Fin 0; Js.Fin 1]) as (_ & Hlen & _ & Hh & _).
  - intros i. unfold constStream. lra.
  - split; [exact Hlen | exact Hh].
Defined.

(** C7, the claim as stated fails: a particle that starts at height 18 with
    fall speed 0.075 is at height 17.925, above 15, after the first frame. *)
Lemma snow_height_above_ceiling :
  ~ snowContract (constStream (9 / 10)) 0 [Js.Fin 0].
Proof.
  unfold snowContract. cbv zeta. intros (_ & _ & H).
  rewrite run_map in H. rewrite Forall_forall in H.
  destruct (H (Snow.fall (Snow.newParticle (constStream (9 / 10)) 0)))
    as (v & Hv & Hr).
  - cbn [List.length Nat.iter].
    apply in_map. unfold Snow.particles.
    apply in_map_iff. exists 0%nat.
    split; [reflexivity | apply in_seq; unfold Snow.count; lia].
  - unfold Snow.fall, Snow.newParticle, constStream in Hv. cbv zeta in Hv.
    cbn [Snow.position Snow.speed vx vy vz Js.add Js.sub Js.neg Js.mul] in Hv.
    rewrite ltb_fin_false in Hv by lra.
    injection Hv as Hv. lra.
Qed.

(** ** The background *)

Lemma min_pinf_fin (x : R) : Js.min Js.PInf (Js.Fin x) = Js.Fin x.
Proof. reflexivity. Qed.

(** C8.  For every frame with a non-negative frame time [delta], every
    current colour and every target colour, the controller blends with the
    factor [min(delta, 0.1) * 2], which never exceeds 0.2, so that every
    channel of the new current colour is the convex combination
    [(1 - a) * current + a * target] of the old value and the target: the
    new colour lies on the segment between the two and never passes the
    target, however large [delta] is, an infinite one included; the scene
    background is the new current colour. *)
Theorem background_blend_stays_on_segment
    (delta r g b r' g' b' : R) (s : Background.Scene) :
  0 <= delta ->
  Background.currentColor s = rgb r g b ->
  let target := rgb r' g' b' in
  let s' := Background.frame target delta s in
  exists a : R,
    a = Rmin delta 0.1 * 2 /\ 0 <= a <= 0.2 /\
    Background.currentColor s' = lerp (Background.currentColor s) target a /\
    Background.currentColor s' =
      rgb ((1 - a) * r + a * r')%R ((1 - a) * g + a * g')%R
          ((1 - a) * b + a * b')%R /\
    Rmin r r' <= (1 - a) * r + a * r' <= Rmax r r' /\
    Rmin g g' <= (1 - a) * g + a * g' <= Rmax g g' /\
    Rmin b b' <= (1 - a) * b + a * b' <= Rmax b b' /\
    Background.background s' = Some (Background.currentColor s') /\
    Background.currentColor (Background.frame target Js.PInf s) =
      lerp (Background.currentColor s) target 0.2%R.
Proof.
  intros Hdelta Hcur. cbv zeta.
  exists (Rmin delta 0.1 * 2).
  assert (Ha : 0 <= Rmin delta 0.1 * 2 <= 0.2).
  { unfold Rmin. destruct (Rle_dec delta 0.1); lra. }
  assert (Hseg : forall x y a, 0 <= a <= 0.2 ->
            Rmin x y <= (1 - a) * x + a * y <= Rmax x y).
  { intros x y a Ha'. unfold Rmin, Rmax. destruct (Rle_dec x y); nra. }
  unfold Background.frame. cbv zeta.
  cbn [Background.currentColor Background.background].
  rewrite Hcur. rewrite min_fin, min_pinf_fin. js_fin.
  split; [reflexivity |]. split; [exact Ha |].
  split; [reflexivity |].
  split; [unfold lerp; rewrite lerpColors_fin; f_equal; f_equal; ring |].
  repeat (split; [apply Hseg; exact Ha |]).
  split; [reflexivity |].
  unfold lerp. do 2 f_equal. lra.
Qed.

(** A frame of five seconds, from black toward white. *)
Lemma background_blend_stays_on_segment_witness :
  exists a : R,
    a = Rmin 5 0.1 * 2 /\ 0 <= a <= 0.2 /\
    Background.currentColor
      (Background.frame (rgb 1 1 1) (Js.Fin 5)
         (Background.mkScene (rgb 0 0 0) None None)) =
    rgb ((1 - a) * 0 + a * 1)%R ((1 - a) * 0 + a * 1)%R
        ((1 - a) * 0 + a * 1)%R.
Proof.
  destruct (background_blend_stays_on_segment 5 0 0 0 1 1 1
              (Background.mkScene (rgb 0 0 0) None None))
    as (a & Ea & Ha & _ & Hc & _); [lra | reflexivity |].
  exists a. split; [exact Ea |]. split; [exact Ha | exact Hc].
Defined.

(** * Further properties *)

(** ** The brush layout: the loop nest *)

Section LayoutLoops.

Variable rnd : nat -> R.
Variable lookAt : Vector3 -> Vector3 -> Vector3.

Lemma brushLoop_iter (N : nat) (yB rB : Js.num) (n : nat)
    (st : Tree.Layout) :
  (Tree.index st + n <= N)%nat ->
  Tree.brushLoop rnd lookAt N yB rB n st =
  Nat.iter n (Tree.brush rnd lookAt yB rB) st.
Proof.
  revert st. induction n as [| n IH]; intros st Hn; [reflexivity |].
  cbn [Tree.brushLoop].
  destruct (Nat.leb_spec N (Tree.index st)) as [Hge | _]; [lia |].
  rewrite IH by (cbn [Tree.brush Tree.index]; lia).
  symmetry. apply Nat.iter_succ_r.
Qed.

Lemma index_iter_brush (yB rB : Js.num) (n : nat) (st : Tree.Layout) :
  Tree.index (Nat.iter n (Tree.brush rnd lookAt yB rB) st)
  = (Tree.index st + n)%nat.
Proof.
  induction n as [| n IH]; [cbn; lia |].
  rewrite Nat.iter_succ. cbn [Tree.brush Tree.index]. rewrite IH. lia.
Qed.

Lemma layers_without_break (N L n l0 : nat) (st : Tree.Layout) :
  Tree.index st = (l0 * (N / L))%nat -> (l0 + n <= L)%nat ->
  fold_left (Tree.layer rnd lookAt N L) (seq l0 n) st =
  fold_left
    (fun st l =>
       Nat.iter (N / L)
         (Tree.brush rnd lookAt (Tree.yBase l) (Tree.radiusBase L l)) st)
    (seq l0 n) st.
Proof.
  revert l0 st. induction n as [| n IH]; intros l0 st Hi Hle; [reflexivity |].
  cbn [seq fold_left]. unfold Tree.layer at 2. cbv zeta.
  assert (HN : (L * (N / L) <= N)%nat) by apply Nat.Div0.mul_div_le.
  rewrite brushLoop_iter by nia.
  apply IH; [| lia].
  rewrite index_iter_brush, Hi. lia.
Qed.

End LayoutLoops.

(** X1.  The test [index >= BRUSH_COUNT] of the inner loop never fires:
    whatever the two counts, the layout is that of the loop nest without
    the [break], in which every layer receives its [floor(N/L)] brushes. *)
Theorem layout_break_never_fires
    (rnd : nat -> R) (lookAt : Vector3 -> Vector3 -> Vector3) (N L k : nat) :
  Tree.layout rnd lookAt N L k = layoutWithoutBreak rnd lookAt N L k.
Proof.
  unfold Tree.layout, layoutWithoutBreak.
  apply layers_without_break; [reflexivity | lia].
Qed.

(** X2.  With fewer brushes than layers, and so with no layer at all, the
    generator places no brush: the three arrays stay empty and no random
    number is drawn. *)
Theorem layout_empty_below_one_per_layer
    (rnd : nat -> R) (lookAt : Vector3 -> Vector3 -> Vector3) (N L k : nat) :
  (N < L)%nat \/ L = 0%nat ->
  Tree.pos (Tree.layout rnd lookAt N L k) = [] /\
  Tree.rot (Tree.layout rnd lookAt N L k) = [] /\
  Tree.sca (Tree.layout rnd lookAt N L k) = [] /\
  Tree.draws (Tree.layout rnd lookAt N L k) = k.
Proof.
  intros H.
  assert (Hc : (N / L * L = 0)%nat).
  { destruct H as [H | ->]; [rewrite Nat.div_small by exact H |]; lia. }
  destruct (layout_lengths rnd lookAt N L k) as (_ & Hp & Hr & Hs).
  destruct (layout_spec rnd lookAt N L k) as (_ & Hd & _).
  rewrite Nat.mul_comm in Hd. rewrite Hc in *.
  repeat split; try (apply length_zero_iff_nil; assumption). lia.
Qed.

(** Five brushes for nine layers. *)
Lemma layout_empty_below_one_per_layer_witness :
  Tree.pos (Tree.layout (constStream (1 / 2)) zeroLookAt 5 9 0) = [] /\
  Tree.rot (Tree.layout (constStream (1 / 2)) zeroLookAt 5 9 0) = [] /\
  Tree.sca (Tree.layout (constStream (1 / 2)) zeroLookAt 5 9 0) = [] /\
  Tree.draws (Tree.layout (constStream (1 / 2)) zeroLookAt 5 9 0) = 0%nat.
Proof.
  apply (layout_empty_below_one_per_layer (constStream (1 / 2)) zeroLookAt
           5 9 0).
  left. lia.
Defined.

(** ** The brush layout: what the arrays hold *)

Section LayoutArrays.

Variable rnd : nat -> R.
Variable lookAt : Vector3 -> Vector3 -> Vector3.
Variables BRUSH_COUNT LAYER_COUNT k : nat.

Local Abbreviation arraysAfter :=
  (arraysState rnd lookAt BRUSH_COUNT LAYER_COUNT k).

Lemma brush_arrays_step (l m : nat) (st : Tree.Layout) :
  (l * (BRUSH_COUNT / LAYER_COUNT) <= m)%nat ->
  (m < (l + 1) * (BRUSH_COUNT / LAYER_COUNT))%nat ->
  arraysAfter m st ->
  arraysAfter (S m)
    (Tree.brush rnd lookAt (Tree.yBase l) (Tree.radiusBase LAYER_COUNT l) st).
Proof.
  intros Hlo Hhi (Hst & Hr & Hs).
  split; [apply (brush_step rnd lookAt BRUSH_COUNT LAYER_COUNT k l m);
          assumption |].
  destruct Hst as (_ & Hd & _).
  unfold Tree.brush. cbn [Tree.rot Tree.sca]. split.
  - rewrite seq_S, flat_map_app, Hr, Hd. cbn [flat_map Nat.add].
    rewrite app_nil_r. f_equal. unfold brushRotation, brushAt.
    rewrite (layerOf_within BRUSH_COUNT LAYER_COUNT l m Hlo Hhi).
    reflexivity.
  - rewrite seq_S, flat_map_app, Hs, Hd. cbn [flat_map Nat.add].
    rewrite app_nil_r. reflexivity.
Qed.

Lemma brushLoop_arrays (l n m : nat) (st : Tree.Layout) :
  (l * (BRUSH_COUNT / LAYER_COUNT) <= m)%nat ->
  (m + n <= (l + 1) * (BRUSH_COUNT / LAYER_COUNT))%nat ->
  ((l + 1) * (BRUSH_COUNT / LAYER_COUNT) <= BRUSH_COUNT)%nat ->
  arraysAfter m st ->
  arraysAfter (m + n)
    (Tree.brushLoop rnd lookAt BRUSH_COUNT (Tree.yBase l)
       (Tree.radiusBase LAYER_COUNT l) n st).
Proof.
  revert m st. induction n as [| n IH]; intros m st Hlo Hhi HN Hst.
  - rewrite Nat.add_0_r. exact Hst.
  - cbn [Tree.brushLoop].
    assert (Hidx : Tree.index st = m)
      by (destruct Hst as ((H & _) & _); exact H).
    rewrite Hidx.
    destruct (Nat.leb_spec BRUSH_COUNT m) as [Hge | _]; [lia |].
    replace (m + S n)%nat with (S m + n)%nat by lia.
    apply IH; try lia.
    apply (brush_arrays_step l m); [lia | lia | exact Hst].
Qed.

Lemma layers_arrays (n l0 : nat) (st : Tree.Layout) :
  (l0 + n <= LAYER_COUNT)%nat ->
  arraysAfter (l0 * (BRUSH_COUNT / LAYER_COUNT)) st ->
  arraysAfter ((l0 + n) * (BRUSH_COUNT / LAYER_COUNT))
    (fold_left (Tree.layer rnd lookAt BRUSH_COUNT LAYER_COUNT) (seq l0 n) st).
Proof.
  revert l0 st. induction n as [| n IH]; intros l0 st Hle Hst.
  - rewrite Nat.add_0_r. exact Hst.
  - cbn [seq fold_left].
    replace (l0 + S n)%nat with (S l0 + n)%nat by lia.
    apply IH; [lia |].
    unfold Tree.layer. cbv zeta.
    replace (S l0 * (BRUSH_COUNT / LAYER_COUNT))%nat
      with (l0 * (BRUSH_COUNT / LAYER_COUNT) + BRUSH_COUNT / LAYER_COUNT)%nat
      by lia.
    apply brushLoop_arrays; try lia; [| exact Hst].
    assert (LAYER_COUNT * (BRUSH_COUNT / LAYER_COUNT) <= BRUSH_COUNT)%nat
      by (apply Nat.Div0.mul_div_le).
    nia.
Qed.

Lemma layout_arrays :
  arraysAfter (BRUSH_COUNT / LAYER_COUNT * LAYER_COUNT)
    (Tree.layout rnd lookAt BRUSH_COUNT LAYER_COUNT k).
Proof.
  unfold Tree.layout.
  replace (BRUSH_COUNT / LAYER_COUNT * LAYER_COUNT)%nat
    with ((0 + LAYER_COUNT) * (BRUSH_COUNT / LAYER_COUNT))%nat by lia.
  apply layers_arrays; [lia |].
  unfold arraysState, layoutState, Tree.emptyLayout. simpl.
  repeat split; lia.
Qed.

End LayoutArrays.

Lemma read3_triples (f : nat -> list Js.num) (m j : nat) :
  (forall i, List.length (f i) = 3%nat) -> (j < m)%nat ->
  Some (Tree.read3 (flat_map f (seq 0 m)) j) = readsOf (f j).
Proof.
  intros Hf Hj. unfold Tree.read3.
  replace (j * 3)%nat with (j * 3 + 0)%nat at 1 by lia.
  rewrite !nth_error_triples by (try exact Hf; lia).
  specialize (Hf j).
  destruct (f j) as [| a [| b [| c [| d t]]]]; try discriminate Hf.
  reflexivity.
Qed.

Lemma brushPosition_height_band (yB rB u1 u2 u3 : R) :
  0 <= u1 < 1 -> 0 <= u3 < 1 -> 0 < rB ->
  exists y,
    vy (Tree.brushPosition (Js.Fin yB) (Js.Fin rB) u1 u2 u3) = Js.Fin y /\
    yB <= y < yB + 1.
Proof.
  intros Hu1 Hu3 HrB. unfold Tree.brushPosition. cbv zeta. cbn [vy].
  rewrite sqrt_fin by lra. js_fin. eexists. split; [reflexivity |].
  assert (Hs0 : 0 <= sqrt u1) by apply sqrt_pos.
  assert (Hs1 : sqrt u1 <= 1).
  { rewrite <- sqrt_1. apply sqrt_le_1_alt. lra. }
  replace (sqrt u1 * rB / rB) with (sqrt u1) by (field; lra).
  nra.
Qed.

Lemma layout_height_band (rnd : nat -> R)
    (lookAt : Vector3 -> Vector3 -> Vector3) (N L k j : nat) :
  uniform01 rnd -> L <> 1%nat -> (j < N / L * L)%nat ->
  exists y,
    nth_error (Tree.pos (Tree.layout rnd lookAt N L k)) (j * 3 + 1)
    = Some (Js.Fin y) /\
    -3.5 + INR (layerOf N L j) * 1.3 <= y
    < -3.5 + INR (layerOf N L j) * 1.3 + 1.
Proof.
  intros Hrnd HL1 Hj.
  assert (HL : (2 <= L)%nat) by (destruct L as [| [| L']]; lia).
  assert (Hl : (layerOf N L j < L)%nat).
  { unfold layerOf. apply Nat.Div0.div_lt_upper_bound. lia. }
  destruct (layout_spec rnd lookAt N L k) as (_ & _ & Hp & _).
  rewrite Hp, nth_error_triples by (try reflexivity; lia).
  unfold brushAt. cbv zeta. rewrite yBase_fin.
  destruct (radiusBase_fin L _ HL Hl) as (rB & -> & HrB).
  destruct (brushPosition_height_band (-3.5 + INR (layerOf N L j) * 1.3) rB
              (rnd (k + 7 * j)%nat) (rnd (k + 7 * j + 1)%nat)
              (rnd (k + 7 * j + 2)%nat)) as (y & Hy & Hband);
    [apply Hrnd | apply Hrnd | lra |].
  exists y. cbn [coords nth_error]. rewrite Hy.
  split; [reflexivity | exact Hband].
Qed.

(** X3.  With more than one layer, every brush has a real height within
    one unit above the base height of its layer, [yBase <= y < yBase + 1];
    hence all the heights of a layout of [L] layers lie in
    [-3.5, 1.3 * L - 3.8), which is [-3.5, 7.9) for the nine layers of the
    source. *)
Theorem brush_heights_within_layer_band
    (rnd : nat -> R) (lookAt : Vector3 -> Vector3 -> Vector3) (N L k j : nat) :
  uniform01 rnd -> L <> 1%nat -> (j < N / L * L)%nat ->
  exists y,
    nth_error (Tree.pos (Tree.layout rnd lookAt N L k)) (j * 3 + 1)
    = Some (Js.Fin y) /\
    Tree.yBase (layerOf N L j) = Js.Fin (-3.5 + INR (layerOf N L j) * 1.3) /\
    -3.5 + INR (layerOf N L j) * 1.3 <= y
    < -3.5 + INR (layerOf N L j) * 1.3 + 1 /\
    -3.5 <= y < 1.3 * INR L - 3.8.
Proof.
  intros Hrnd HL1 Hj.
  destruct (layout_height_band rnd lookAt N L k j Hrnd HL1 Hj)
    as (y & Hy & Hband).
  exists y. split; [exact Hy |]. split; [apply yBase_fin |].
  split; [exact Hband |].
  assert (Hl : (layerOf N L j + 1 <= L)%nat).
  { unfold layerOf.
    assert (j / (N / L) < L)%nat
      by (apply Nat.Div0.div_lt_upper_bound; lia).
    lia. }
  apply le_INR in Hl. rewrite plus_INR in Hl. cbn [INR] in Hl.
  pose proof (pos_INR (layerOf N L j)). lra.
Qed.

(** The first brush of the layout of the source. *)
Lemma brush_heights_within_layer_band_witness :
  exists y,
    nth_error
      (Tree.pos (Tree.layout (constStream (1 / 2)) zeroLookAt 1100 9 0))
      (0 * 3 + 1)
    = Some (Js.Fin y) /\
    -3.5 <= y < 1.3 * INR 9 - 3.8.
Proof.
  destruct (brush_heights_within_layer_band (constStream (1 / 2)) zeroLookAt
              1100 9 0 0) as (y & Hy & _ & _ & Hr).
  - intros i. unfold constStream. lra.
  - discriminate.
  - vm_compute. lia.
  - exists y. split; [exact Hy | exact Hr].
Defined.

(** X4.  Whatever the two counts, every brush is scaled uniformly: its
    three scale entries are one and the same real number, within
    [0.3, 0.8). *)
Theorem brush_scale_uniform
    (rnd : nat -> R) (lookAt : Vector3 -> Vector3 -> Vector3) (N L k j : nat) :
  uniform01 rnd -> (j < N / L * L)%nat ->
  exists s,
    Tree.read3 (Tree.sca (Tree.layout rnd lookAt N L k)) j
    = (Some (Js.Fin s), Some (Js.Fin s), Some (Js.Fin s)) /\
    0.3 <= s < 0.8.
Proof.
  intros Hrnd Hj.
  destruct (layout_arrays rnd lookAt N L k) as (_ & _ & Hs).
  exists (brushScale rnd k j). split.
  - rewrite Hs.
    pose proof (read3_triples (scales rnd k) (N / L * L) j
                  (fun _ => eq_refl) Hj) as H.
    cbn [scales readsOf] in H. injection H as H1 H2 H3.
    unfold Tree.read3. rewrite H1, H2, H3. reflexivity.
  - unfold brushScale. pose proof (Hrnd (k + 7 * j + 6)%nat). lra.
Qed.

(** The first brush of the layout of the source. *)
Lemma brush_scale_uniform_witness :
  exists s,
    Tree.read3
      (Tree.sca (Tree.layout (constStream (1 / 2)) zeroLookAt 1100 9 0)) 0
    = (Some (Js.Fin s), Some (Js.Fin s), Some (Js.Fin s)) /\
    0.3 <= s < 0.8.
Proof.
  apply (brush_scale_uniform (constStream (1 / 2)) zeroLookAt 1100 9 0 0).
  - intros i. unfold constStream. lra.
  - vm_compute. lia.
Defined.

(** X5.  The loop that initialises the matrices reads back, for every
    brush of the layout of the source, exactly what the generator stored
    for it: its position, its Euler angles (those of [lookAt] with their
    jitter, in the order x, y, z) and its scale. *)
Theorem init_geometry_reads_back
    (rnd : nat -> R) (lookAt : Vector3 -> Vector3 -> Vector3) (k j : nat) :
  (j < 1098)%nat ->
  let st := Tree.layout rnd lookAt Tree.BRUSH_COUNT Tree.LAYER_COUNT k in
  exists t,
    nth_error (Tree.initGeometry (Tree.pos st) (Tree.rot st) (Tree.sca st)) j
    = Some t /\
    Some (Tree.tPosition t) =
      readsOf (coords (brushAt rnd Tree.BRUSH_COUNT Tree.LAYER_COUNT k j)) /\
    Some (Tree.tRotation t) =
      readsOf (brushRotation rnd lookAt Tree.BRUSH_COUNT Tree.LAYER_COUNT k j)
    /\
    Some (Tree.tScale t) = readsOf (scales rnd k j).
Proof.
  intros Hj. cbv zeta.
  destruct (layout_arrays rnd lookAt Tree.BRUSH_COUNT Tree.LAYER_COUNT k)
    as ((_ & _ & Hp & _) & Hr & Hs).
  change (Tree.BRUSH_COUNT / Tree.LAYER_COUNT * Tree.LAYER_COUNT)%nat
    with 1098%nat in Hp, Hr, Hs.
  unfold Tree.initGeometry.
  rewrite nth_error_map_seq by (unfold Tree.BRUSH_COUNT; lia).
  eexists. split; [reflexivity |].
  cbn [Tree.tPosition Tree.tRotation Tree.tScale].
  rewrite Hp, Hr, Hs.
  repeat split; apply read3_triples; try exact Hj; reflexivity.
Qed.

(** The last brush of the layout. *)
Lemma init_geometry_reads_back_witness :
  exists t,
    nth_error
      (Tree.initGeometry
         (Tree.pos (Tree.layout (constStream (1 / 2)) zeroLookAt
                      Tree.BRUSH_COUNT Tree.LAYER_COUNT 0))
         (Tree.rot (Tree.layout (constStream (1 / 2)) zeroLookAt
                      Tree.BRUSH_COUNT Tree.LAYER_COUNT 0))
         (Tree.sca (Tree.layout (constStream (1 / 2)) zeroLookAt
                      Tree.BRUSH_COUNT Tree.LAYER_COUNT 0))) 1097
    = Some t /\
    Some (Tree.tScale t) = readsOf (scales (constStream (1 / 2)) 0 1097).
Proof.
  destruct (init_geometry_reads_back (constStream (1 / 2)) zeroLookAt 0 1097)
    as (t & Ht & _ & _ & Hs); [lia |].
  exists t. split; [exact Ht | exact Hs].
Defined.

(** ** The brush colours: the gradient along the tree *)

Lemma heightFactor_fin (y u : R) :
  Tree.heightFactor (Js.Fin y) u = Js.Fin (heightFactorR y u).
Proof.
  unfold Tree.heightFactor, Tree.range, Tree.maxY, Tree.minY, heightFactorR.
  cbv zeta. js_fin. reflexivity.
Qed.

Lemma heightFactorR_saturated (y u : R) :
  5.5 <= y -> 0 <= u < 1 -> 0.975 <= heightFactorR y u <= 1.
Proof.
  intros Hy Hu. unfold heightFactorR.
  rewrite (Rmin_left 1 ((y - -4.0) / (5.5 - -4.0))) by lra.
  rewrite (Rmax_right 0 1) by lra.
  unfold Rmax, Rmin.
  destruct (Rle_dec 1 _); destruct (Rle_dec 0 _); lra.
Qed.

Lemma heightFactorR_monotone (y1 y2 u : R) :
  y1 <= y2 -> heightFactorR y1 u <= heightFactorR y2 u.
Proof.
  intros Hy. unfold heightFactorR.
  assert (Hq : (y1 - -4.0) / (5.5 - -4.0) <= (y2 - -4.0) / (5.5 - -4.0))
    by lra.
  set (q1 := (y1 - -4.0) / (5.5 - -4.0)) in *.
  set (q2 := (y2 - -4.0) / (5.5 - -4.0)) in *.
  set (n := (u - 0.5) * 0.05).
  assert (Hin : Rmax 0 (Rmin 1 q1) <= Rmax 0 (Rmin 1 q2)).
  { unfold Rmax, Rmin.
    destruct (Rle_dec 1 q1); destruct (Rle_dec 1 q2);
      repeat match goal with
             | |- context [Rle_dec ?a ?b] => destruct (Rle_dec a b)
             end; lra. }
  set (a1 := Rmax 0 (Rmin 1 q1)) in *.
  set (a2 := Rmax 0 (Rmin 1 q2)) in *.
  unfold Rmax, Rmin.
  destruct (Rle_dec 1 (a1 + n)); destruct (Rle_dec 1 (a2 + n));
    repeat match goal with
           | |- context [Rle_dec ?a ?b] => destruct (Rle_dec a b)
           end; lra.
Qed.

(** X6.  The brushes of the two top layers of the source's tree (the
    instances 854 to 1097) stand above the height 5.5 at which the height
    factor saturates: whatever their height, their colour is the blend from
    [highColor] toward white at a fraction between 0.65 and 0.7, the noise
    alone deciding where in between. *)
Theorem top_layers_are_frosted
    (rnd : nat -> R) (lookAt : Vector3 -> Vector3 -> Vector3)
    (parseColor : string -> Color) (themeName : ThemeKey) (k k' i : nat) :
  uniform01 rnd -> (854 <= i < 1098)%nat ->
  let highColor := parseColor (leavesHigh (THEMES themeName)) in
  let snow := parseColor "#ffffff" in
  let positions :=
    Tree.pos (Tree.layout rnd lookAt Tree.BRUSH_COUNT Tree.LAYER_COUNT k) in
  exists y f : R,
    nth_error positions (i * 3 + 1) = Some (Js.Fin y) /\ 5.5 < y /\
    nth_error (Tree.updateColors rnd parseColor themeName positions k') i
    = Some (lerpColors highColor snow f) /\
    0.65 <= f <= 0.7.
Proof.
  intros Hrnd Hi. cbv zeta.
  destruct (layout_height_band rnd lookAt Tree.BRUSH_COUNT Tree.LAYER_COUNT
              k i Hrnd) as (y & Hy & Hband);
    [discriminate
    | change (Tree.BRUSH_COUNT / Tree.LAYER_COUNT * Tree.LAYER_COUNT)%nat
        with 1098%nat; lia
    |].
  assert (Hlayer : (7 <= layerOf Tree.BRUSH_COUNT Tree.LAYER_COUNT i)%nat).
  { unfold layerOf.
    change (Tree.BRUSH_COUNT / Tree.LAYER_COUNT)%nat with 122%nat.
    apply Nat.div_le_lower_bound; lia. }
  apply le_INR in Hlayer.
  replace (INR 7) with 7 in Hlayer by (rewrite INR_IZR_INZ; reflexivity).
  pose proof (heightFactorR_saturated y (rnd (k' + i)%nat)
                ltac:(lra) (Hrnd _)) as Ht.
  exists y, ((heightFactorR y (rnd (k' + i)%nat) - 0.65) / 0.35 * 0.7).
  split; [exact Hy |]. split; [lra |]. split.
  - unfold Tree.updateColors. cbv zeta.
    rewrite nth_error_map_seq by (unfold Tree.BRUSH_COUNT; lia).
    rewrite Hy. cbn [Js.toNumber]. rewrite heightFactor_fin.
    rewrite brushColor_high by lra. reflexivity.
  - lra.
Qed.

(** The instance 900 in the theme [green]. *)
Lemma top_layers_are_frosted_witness :
  exists y f : R,
    nth_error
      (Tree.pos (Tree.layout (constStream (1 / 2)) zeroLookAt
                   Tree.BRUSH_COUNT Tree.LAYER_COUNT 0)) (900 * 3 + 1)
    = Some (Js.Fin y) /\ 5.5 < y /\
    nth_error
      (Tree.updateColors (constStream (1 / 2)) hexColor green
         (Tree.pos (Tree.layout (constStream (1 / 2)) zeroLookAt
                      Tree.BRUSH_COUNT Tree.LAYER_COUNT 0)) 0) 900
    = Some (lerpColors (hexColor "#4ade80") (hexColor "#ffffff") f) /\
    0.65 <= f <= 0.7.
Proof.
  apply (top_layers_are_frosted (constStream (1 / 2)) zeroLookAt hexColor
           green 0 0 900).
  - intros i. unfold constStream. lra.
  - lia.
Defined.

(** X7.  With the same noise, a higher brush never gets a lower height
    factor: the factor is a non-decreasing function of the height, and from
    the height 5.5 on it no longer depends on the height at all. *)
Theorem height_factor_monotone (y1 y2 u : R) :
  y1 <= y2 ->
  exists t1 t2 : R,
    Tree.heightFactor y1 u = Js.Fin t1 /\
    Tree.heightFactor y2 u = Js.Fin t2 /\
    t1 <= t2 /\
    (5.5 <= y1 -> t1 = t2).
Proof.
  intros Hy. exists (heightFactorR y1 u), (heightFactorR y2 u).
  split; [apply heightFactor_fin |]. split; [apply heightFactor_fin |].
  split; [apply heightFactorR_monotone; exact Hy |].
  intros H1. unfold heightFactorR.
  rewrite (Rmin_left 1 ((y1 - -4.0) / (5.5 - -4.0))) by lra.
  rewrite (Rmin_left 1 ((y2 - -4.0) / (5.5 - -4.0))) by lra.
  reflexivity.
Qed.

(** A brush at height 0 and one at height 3, noise 0.4. *)
Lemma height_factor_monotone_witness :
  exists t1 t2 : R,
    Tree.heightFactor (Js.Fin 0) 0.4 = Js.Fin t1 /\
    Tree.heightFactor (Js.Fin 3) 0.4 = Js.Fin t2 /\
    t1 <= t2.
Proof.
  destruct (height_factor_monotone 0 3 0.4) as (t1 & t2 & H1 & H2 & H & _);
    [lra |].
  exists t1, t2. repeat split; assumption.
Defined.

(** X8.  The gradient has no jump: below the threshold 0.65 every channel
    differs from that of [highColor] by [(1 - t / 0.65)] times the
    difference between [lowColor] and [highColor], from the threshold on by
    the frost fraction times the difference between white and [highColor];
    the colour is [lowColor] at 0 and [highColor] at the threshold, from
    either side. *)
Theorem gradient_continuous_at_threshold
    (lr lg lb hr hg hb sr sg sb : R) :
  let lowColor := rgb lr lg lb in
  let highColor := rgb hr hg hb in
  let snow := rgb sr sg sb in
  Tree.brushColor lowColor highColor snow 0 = lowColor /\
  Tree.brushColor lowColor highColor snow 0.65 = highColor /\
  lerpColors lowColor highColor (0.65 / 0.65)%R = highColor /\
  (forall t : R, t < 0.65 ->
     Tree.brushColor lowColor highColor snow t =
     rgb (hr + (1 - t / 0.65) * (lr - hr))%R
         (hg + (1 - t / 0.65) * (lg - hg))%R
         (hb + (1 - t / 0.65) * (lb - hb))%R) /\
  (forall t : R, 0.65 <= t ->
     Tree.brushColor lowColor highColor snow t =
     rgb (hr + (t - 0.65) / 0.35 * 0.7 * (sr - hr))%R
         (hg + (t - 0.65) / 0.35 * 0.7 * (sg - hg))%R
         (hb + (t - 0.65) / 0.35 * 0.7 * (sb - hb))%R).
Proof.
  cbv zeta.
  split; [rewrite brushColor_low by lra; rewrite lerpColors_fin;
          f_equal; f_equal; lra |].
  split; [rewrite brushColor_high by lra; rewrite lerpColors_fin;
          f_equal; f_equal; lra |].
  split; [rewrite lerpColors_fin; f_equal; f_equal; lra |].
  split.
  - intros t Ht. rewrite brushColor_low by exact Ht.
    rewrite lerpColors_fin. f_equal; f_equal; lra.
  - intros t Ht. rewrite brushColor_high by exact Ht.
    rewrite lerpColors_fin. f_equal; f_equal; lra.
Qed.

(** ** The ribbon curve: a rising, tightening helix *)

Lemma INR_200 : INR 200 = 200.
Proof. rewrite INR_IZR_INZ. reflexivity. Qed.

Lemma controlPoint_polar (i : nat) :
  (i <= 200)%nat ->
  vy (Ribbon.controlPoint i) = Js.Fin (-3.2 + 9 * (INR i / 200)) /\
  Tree.horizontalRadius (Ribbon.controlPoint i)
  = Js.Fin (4 - 3.7 * (INR i / 200)).
Proof.
  intros Hi. rewrite controlPoint_helix. unfold helixPoint. cbv zeta.
  assert (H0 : 0 <= INR i) by apply pos_INR.
  assert (H1 : INR i <= 200) by (rewrite <- INR_200; apply le_INR; exact Hi).
  cbn [vy]. split; [f_equal; lra |].
  unfold Tree.horizontalRadius. js_fin.
  set (a := INR i / 200 * (2 * PI) * 3.5).
  set (r := 3.7 * (1 - INR i / 200) + 0.3).
  assert (Hr : 0 <= r) by (unfold r; lra).
  assert (Hsq : cos a * r * (cos a * r) + sin a * r * (sin a * r) = r * r).
  { pose proof (sin2_cos2 a) as H. unfold Rsqr in H. nra. }
  rewrite Hsq. rewrite sqrt_fin by nra. rewrite sqrt_square by exact Hr.
  f_equal. unfold r. lra.
Qed.

(** X9.  Along the control points of the ribbon curve the height rises
    and the distance from the axis shrinks, both strictly: the point number
    [i] stands at the height [-3.2 + 9 * i / 200] and at the horizontal
    radius [4 - 3.7 * i / 200], so that all the points lie between the
    heights -3.2 and 5.8 and between the radii 0.3 and 4. *)
Theorem curve_rises_and_tightens (i j : nat) :
  (i < j <= 200)%nat ->
  exists hi hj ri rj : R,
    vy (Ribbon.controlPoint i) = Js.Fin hi /\
    vy (Ribbon.controlPoint j) = Js.Fin hj /\
    Tree.horizontalRadius (Ribbon.controlPoint i) = Js.Fin ri /\
    Tree.horizontalRadius (Ribbon.controlPoint j) = Js.Fin rj /\
    hi = -3.2 + 9 * (INR i / 200) /\ ri = 4 - 3.7 * (INR i / 200) /\
    -3.2 <= hi < hj /\ hj <= 5.8 /\
    0.3 <= rj < ri /\ ri <= 4.
Proof.
  intros (Hij & Hj).
  destruct (controlPoint_polar i ltac:(lia)) as (Hhi & Hri).
  destruct (controlPoint_polar j Hj) as (Hhj & Hrj).
  do 4 eexists.
  split; [exact Hhi |]. split; [exact Hhj |].
  split; [exact Hri |]. split; [exact Hrj |].
  split; [reflexivity |]. split; [reflexivity |].
  assert (H0 : 0 <= INR i) by apply pos_INR.
  assert (H1 : INR i < INR j) by (apply lt_INR; exact Hij).
  assert (H2 : INR j <= 200) by (rewrite <- INR_200; apply le_INR; exact Hj).
  lra.
Qed.

(** The two ends of the curve. *)
Lemma curve_rises_and_tightens_witness :
  exists hi hj ri rj : R,
    vy (Ribbon.controlPoint 0) = Js.Fin hi /\
    vy (Ribbon.controlPoint 200) = Js.Fin hj /\
    Tree.horizontalRadius (Ribbon.controlPoint 0) = Js.Fin ri /\
    Tree.horizontalRadius (Ribbon.controlPoint 200) = Js.Fin rj /\
    hi < hj /\ rj < ri.
Proof.
  destruct (curve_rises_and_tightens 0 200)
    as (hi & hj & ri & rj & H1 & H2 & H3 & H4 & _ & _ & H5 & _ & H6 & _);
    [lia |].
  exists hi, hj, ri, rj. repeat split; try assumption; lra.
Defined.

(** ** The ribbon text: copies, cuts and positions *)

Lemma map_fst_combine_seq {A : Type} (l : list A) (a : nat) :
  map fst (combine (seq a (List.length l)) l) = seq a (List.length l).
Proof.
  revert a. induction l as [| x l IH]; intros a; [reflexivity |].
  cbn [List.length seq combine map fst]. rewrite IH. reflexivity.
Qed.

Lemma repeatString_add (s : Ribbon.jsString) (a b : nat) :
  Ribbon.repeatString s (a + b) =
  Ribbon.repeatString s a ++ Ribbon.repeatString s b.
Proof.
  induction a as [| a IH]; [reflexivity |].
  cbn [Nat.add Ribbon.repeatString]. rewrite IH, app_assoc. reflexivity.
Qed.

Lemma firstn_repeatString (s : Ribbon.jsString) (a n : nat) :
  (a <= n)%nat ->
  firstn (a * List.length s) (Ribbon.repeatString s n) =
  Ribbon.repeatString s a.
Proof.
  intros Ha. replace n with (a + (n - a))%nat by lia.
  rewrite repeatString_add.
  rewrite <- (length_repeatString s a).
  rewrite firstn_app, Nat.sub_diag, firstn_all, firstn_O, app_nil_r.
  reflexivity.
Qed.

(** X10.  As many whole copies of the text with its separator as fit into
    140 characters stand at the head of the ribbon, one after the other;
    with the 35 characters the text box allows at most, these are at least
    three. *)
Theorem ribbon_shows_whole_copies
    (getPointAt : list Vector3 -> Js.num -> Vector3)
    (text : Ribbon.jsString) (copies : nat) :
  text <> [] ->
  (copies * (List.length text + 7) <= 140)%nat ->
  firstn (copies * (List.length text + 7))
         (map Ribbon.char (Ribbon.textLayout getPointAt text))
  = Ribbon.repeatString (text ++ Ribbon.separator) copies /\
  ((List.length text <= 35)%nat ->
   firstn (3 * (List.length text + 7))
          (map Ribbon.char (Ribbon.textLayout getPointAt text))
   = Ribbon.repeatString (text ++ Ribbon.separator) 3).
Proof.
  intros Hne Hfit.
  assert (Hgen : forall c, (c * (List.length text + 7) <= 140)%nat ->
    firstn (c * (List.length text + 7))
           (map Ribbon.char (Ribbon.textLayout getPointAt text))
    = Ribbon.repeatString (text ++ Ribbon.separator) c).
  { intros c Hc. rewrite textLayout_chars by exact Hne.
    unfold Ribbon.chars. cbv zeta. rewrite firstn_firstn.
    unfold Ribbon.totalCharsNeeded.
    rewrite Nat.min_l by exact Hc.
    rewrite <- baseString_length.
    apply firstn_repeatString.
    pose proof (ceilDiv_covers 140 (List.length (text ++ Ribbon.separator)))
      as Hcov.
    rewrite baseString_length in *.
    specialize (Hcov ltac:(lia)). nia. }
  split; [apply Hgen; exact Hfit |].
  intros H35. apply Hgen. lia.
Qed.

(** The text "HI": fifteen whole copies. *)
Lemma ribbon_shows_whole_copies_witness :
  firstn (15 * (List.length (Ribbon.ofAscii "HI") + 7))
         (map Ribbon.char (Ribbon.textLayout firstPoint (Ribbon.ofAscii "HI")))
  = Ribbon.repeatString (Ribbon.ofAscii "HI" ++ Ribbon.separator) 15.
Proof.
  apply (ribbon_shows_whole_copies firstPoint (Ribbon.ofAscii "HI") 15).
  - discriminate.
  - vm_compute. lia.
Defined.

(** X11.  A text of 133 characters or more leaves no room for a second
    copy, and the ribbon shows the head of the text with its separator; from
    140 characters on the ribbon shows the first 140 characters of the text
    and nothing of the separator. *)
Theorem ribbon_cuts_long_text
    (getPointAt : list Vector3 -> Js.num -> Vector3)
    (text : Ribbon.jsString) :
  (133 <= List.length text)%nat ->
  map Ribbon.char (Ribbon.textLayout getPointAt text)
  = firstn 140 (text ++ Ribbon.separator) /\
  ((140 <= List.length text)%nat ->
   map Ribbon.char (Ribbon.textLayout getPointAt text) = firstn 140 text).
Proof.
  intros Hlen.
  assert (Hne : text <> [])
    by (destruct text; [cbn in Hlen; lia | discriminate]).
  assert (Hone : map Ribbon.char (Ribbon.textLayout getPointAt text)
                 = firstn 140 (text ++ Ribbon.separator)).
  { rewrite textLayout_chars by exact Hne. unfold Ribbon.chars. cbv zeta.
    unfold Ribbon.totalCharsNeeded.
    destruct (Nat.eq_dec (List.length text) 133) as [E | Hgt].
    - rewrite baseString_length, E. cbn [Nat.add].
      change (Ribbon.ceilDiv 140 140) with 1%nat.
      cbn [Ribbon.repeatString]. rewrite app_nil_r. reflexivity.
    - assert (Hc : Ribbon.ceilDiv 140 (List.length (text ++ Ribbon.separator))
                   = 1%nat).
      { unfold Ribbon.ceilDiv. rewrite baseString_length.
        rewrite Nat.mod_small by lia. rewrite Nat.div_small by lia.
        reflexivity. }
      rewrite Hc. cbn [Ribbon.repeatString]. rewrite app_nil_r.
      reflexivity. }
  split; [exact Hone |].
  intros H140. rewrite Hone, firstn_app.
  replace (140 - List.length text)%nat with 0%nat by lia.
  rewrite firstn_O, app_nil_r. reflexivity.
Qed.

(** A text of 150 letters "A". *)
Lemma ribbon_cuts_long_text_witness :
  map Ribbon.char (Ribbon.textLayout firstPoint (repeat 65%N 150))
  = firstn 140 (repeat 65%N 150).
Proof.
  destruct (ribbon_cuts_long_text firstPoint (repeat 65%N 150)) as (_ & H).
  - rewrite repeat_length. lia.
  - apply H. rewrite repeat_length. lia.
Defined.

(** X12.  Where the glyphs stand and how they are turned does not depend
    on the text: two non-empty texts give the same 140 positions and
    rotations, and every rotation is a yaw alone. *)
Theorem glyph_positions_independent_of_text
    (getPointAt : list Vector3 -> Js.num -> Vector3)
    (text1 text2 : Ribbon.jsString) :
  text1 <> [] -> text2 <> [] ->
  map Ribbon.position (Ribbon.textLayout getPointAt text1)
  = map Ribbon.position (Ribbon.textLayout getPointAt text2) /\
  map Ribbon.rotation (Ribbon.textLayout getPointAt text1)
  = map Ribbon.rotation (Ribbon.textLayout getPointAt text2) /\
  Forall (fun g => vx (Ribbon.rotation g) = Js.Fin 0 /\
                   vz (Ribbon.rotation g) = Js.Fin 0)
         (Ribbon.textLayout getPointAt text1).
Proof.
  intros H1 H2.
  assert (Hgen : forall (A : Type) (f : Ribbon.Glyph -> A)
                        (text : Ribbon.jsString),
    text <> [] ->
    (forall step i c, f (Ribbon.place getPointAt step i c)
                      = f (Ribbon.place getPointAt step i 0%N)) ->
    map f (Ribbon.textLayout getPointAt text)
    = map (fun i => f (Ribbon.place getPointAt
                         ((Ribbon.endT - Ribbon.startT) / INR 140)%js i 0%N))
          (seq 0 140)).
  { intros A f text Hne Hf. rewrite textLayout_nonempty by exact Hne.
    rewrite map_map.
    pose proof (map_fst_combine_seq (Ribbon.chars text) 0) as E.
    rewrite chars_length in E.
    transitivity
      (map (fun i => f (Ribbon.place getPointAt
                          ((Ribbon.endT - Ribbon.startT) / INR 140)%js i 0%N))
           (map fst (combine (seq 0 140) (Ribbon.chars text))));
      [| rewrite E; reflexivity].
    rewrite map_map. apply map_ext. intros (i & c). cbn [fst snd].
    apply Hf. }
  split; [| split].
  - rewrite (Hgen _ Ribbon.position text1 H1),
            (Hgen _ Ribbon.position text2 H2); reflexivity.
  - rewrite (Hgen _ Ribbon.rotation text1 H1),
            (Hgen _ Ribbon.rotation text2 H2); reflexivity.
  - rewrite textLayout_nonempty by exact H1.
    apply Forall_forall. intros g Hg. apply in_map_iff in Hg.
    destruct Hg as (ic & <- & _). split; reflexivity.
Qed.

(** The texts "HI" and "JOY". *)
Lemma glyph_positions_independent_of_text_witness :
  map Ribbon.position (Ribbon.textLayout firstPoint (Ribbon.ofAscii "HI"))
  = map Ribbon.position (Ribbon.textLayout firstPoint (Ribbon.ofAscii "JOY")).
Proof.
  apply (glyph_positions_independent_of_text firstPoint
           (Ribbon.ofAscii "HI") (Ribbon.ofAscii "JOY")); discriminate.
Defined.

(** ** The snow: what falls and what stays *)

Lemma fall_fixedPart (p : Snow.Particle) :
  fixedPart (Snow.fall p) = fixedPart p.
Proof. reflexivity. Qed.

Lemma falls_fixedPart (n : nat) (p : Snow.Particle) :
  fixedPart (Nat.iter n Snow.fall p) = fixedPart p.
Proof.
  induction n as [| n IH]; [reflexivity |].
  rewrite Nat.iter_succ, fall_fixedPart. exact IH.
Qed.

Lemma newParticle_ranges (rnd : nat -> R) (k : nat) :
  uniform01 rnd -> constructedRanges (Snow.newParticle rnd k).
Proof.
  intros Hrnd. unfold constructedRanges, fixedPart, Snow.newParticle.
  js_fin. do 6 eexists. split; [reflexivity |].
  pose proof (Hrnd k). pose proof (Hrnd (k + 2)%nat).
  pose proof (Hrnd (k + 3)%nat). pose proof (Hrnd (k + 4)%nat).
  pose proof (Hrnd (k + 5)%nat). pose proof (Hrnd (k + 6)%nat).
  pose proof PI_RGT_0.
  repeat split; try lra; nra.
Qed.

(** X13.  A frame touches nothing but the stored height: after any
    number of frames every particle has the horizontal position, the fall
    speed, the wobble speed and offset and the scale it was given at first. *)
Theorem snow_frames_keep_all_but_height
    (times : list Js.num) (ps : list Snow.Particle) :
  map fixedPart (Snow.run times ps) = map fixedPart ps.
Proof.
  rewrite run_map, map_map. apply map_ext. intros p. apply falls_fixedPart.
Qed.

(** X14.  The particles stay where they were sown: after any number of
    frames every particle still has its two horizontal coordinates within
    [-12.5, 12.5), its fall speed within [0.03, 0.08), its wobble speed
    within [0.5, 1.5), its wobble offset within [0, 2 * PI) and its scale
    within [0.04, 0.1). *)
Theorem snow_particles_stay_in_ranges
    (rnd : nat -> R) (k : nat) (times : list Js.num) :
  uniform01 rnd ->
  Forall constructedRanges (Snow.run times (Snow.particles rnd k)).
Proof.
  intros Hrnd. rewrite run_map. apply Forall_forall. intros q Hq.
  apply in_map_iff in Hq. destruct Hq as (p & <- & Hp).
  unfold Snow.particles in Hp. apply in_map_iff in Hp.
  destruct Hp as (i & <- & _).
  unfold constructedRanges. rewrite falls_fixedPart.
  apply newParticle_ranges. exact Hrnd.
Qed.

(** Three frames on the particles drawn from a constant stream. *)
Lemma snow_particles_stay_in_ranges_witness :
  Forall constructedRanges
         (Snow.run [Js.Fin 0; Js.Fin 1; Js.Fin 2]
            (Snow.particles (constStream (1 / 2)) 0)).
Proof.
  apply (snow_particles_stay_in_ranges (constStream (1 / 2)) 0).
  intros i. unfold constStream. lra.
Defined.

Lemma Forall2_map_r {A B : Type} (R : A -> B -> Prop) (f : A -> B)
    (l : list A) :
  (forall x, In x l -> R x (f x)) -> Forall2 R l (map f l).
Proof.
  induction l as [| x l IH]; intros H; cbn [map]; constructor.
  - apply H. left. reflexivity.
  - apply IH. intros y Hy. apply H. right. exact Hy.
Qed.

(** X15.  The wobble never adds up: at the frame at any real time, after
    any number of earlier frames, each of the 800 flakes is drawn with the
    scale of its particle, at the depth its particle was sown at and within
    0.05 of the abscissa it was sown at. *)
Theorem snow_wobble_never_drifts
    (rnd : nat -> R) (k : nat) (times : list Js.num) (time : R) :
  uniform01 rnd ->
  let sown := Snow.particles rnd k in
  let flakes := snd (Snow.frame true time (Snow.run times sown)) in
  List.length flakes = 800%nat /\
  Forall2 (fun p f =>
             exists x x' : R,
               vx (Snow.position p) = Js.Fin x /\
               vx (Snow.fPosition f) = Js.Fin x' /\
               Rabs (x' - x) <= 0.05 /\
               vz (Snow.fPosition f) = vz (Snow.position p) /\
               Snow.fScale f = Snow.scale p)
          sown flakes.
Proof.
  intros Hrnd. cbv zeta. cbn [Snow.frame snd].
  rewrite run_map, !map_map. split.
  - rewrite length_map. unfold Snow.particles.
    rewrite length_map, length_seq. reflexivity.
  - apply Forall2_map_r. intros p Hp.
    unfold Snow.particles in Hp. apply in_map_iff in Hp.
    destruct Hp as (i & <- & _).
    set (p := Snow.newParticle rnd (k + 7 * i)).
    destruct (newParticle_ranges rnd (k + 7 * i) Hrnd)
      as (x & z & s & ws & wo & sc & Hfix & _).
    fold p in Hfix. clearbody p.
    pose proof (falls_fixedPart (List.length times) p) as Hkeep.
    rewrite Hfix in Hkeep.
    unfold fixedPart in Hfix, Hkeep.
    injection Hfix as Hx Hz Hs Hws Hwo Hsc.
    injection Hkeep as Kx Kz Ks Kws Kwo Ksc.
    set (q := Nat.iter (List.length times) Snow.fall p) in *.
    unfold Snow.flake, Snow.fall. cbv zeta.
    cbn [Snow.fPosition Snow.fScale Snow.position Snow.wobbleSpeed
         Snow.wobbleOffset Snow.scale vx vz].
    rewrite Kx, Kz, Kws, Kwo, Ksc, Hx, Hz, Hsc. js_fin.
    eexists. eexists. split; [reflexivity |]. split; [reflexivity |].
    split; [| split; reflexivity].
    match goal with
    | |- Rabs (x + sin ?a * 0.05 - x) <= 0.05 =>
        pose proof (SIN_bound a) as Hsin;
        replace (x + sin a * 0.05 - x) with (sin a * 0.05) by lra
    end.
    apply Rabs_le. lra.
Qed.

(** The frame at time 3 after two frames. *)
Lemma snow_wobble_never_drifts_witness :
  List.length
    (snd (Snow.frame true (Js.Fin 3)
            (Snow.run [Js.Fin 0; Js.Fin 1]
               (Snow.particles (constStream (1 / 2)) 0)))) = 800%nat.
Proof.
  apply (snow_wobble_never_drifts (constStream (1 / 2)) 0
           [Js.Fin 0; Js.Fin 1] 3).
  intros i. unfold constStream. lra.
Defined.

Lemma fall_keeps_falling (s v : R) (p : Snow.Particle) :
  falling s v p -> -5 <= v - s -> falling s (v - s) (Snow.fall p).
Proof.
  intros (Hs & Hv) Hge. unfold falling, Snow.fall. cbv zeta.
  rewrite Hs, Hv. js_fin. rewrite ltb_fin_false by lra.
  split; [reflexivity |]. cbn [Snow.position vy]. f_equal.
Qed.

Lemma fall_recycles (s v : R) (p : Snow.Particle) :
  falling s v p -> v - s < -5 -> falling s 15 (Snow.fall p).
Proof.
  intros (Hs & Hv) Hlt. unfold falling, Snow.fall. cbv zeta.
  rewrite Hs, Hv. js_fin. rewrite ltb_fin_true by lra.
  split; reflexivity.
Qed.

(** X16.  A particle that has just been recycled to the height 15 is not
    recycled again during its next 249 frames: with a fall speed of at
    most 0.08 its height after [n <= 249] frames is [15 - n * speed], which
    is -4.92 or more, a whole step of the slowest fall above the floor -5. *)
Theorem snow_recycled_particle_falls_freely
    (s : R) (n : nat) (p : Snow.Particle) :
  falling s 15 p -> 0 <= s <= 0.08 -> (n <= 249)%nat ->
  falling s (15 - INR n * s) (Nat.iter n Snow.fall p) /\
  -4.92 <= 15 - INR n * s.
Proof.
  intros Hp Hs. induction n as [| n IH]; intros Hn.
  - cbn [Nat.iter nat_rect INR]. replace (15 - 0 * s) with 15 by lra.
    split; [exact Hp | lra].
  - destruct IH as (IH & _); [lia |].
    assert (Hb : INR (S n) <= 249).
    { replace 249 with (INR 249) by (rewrite INR_IZR_INZ; reflexivity).
      apply le_INR. exact Hn. }
    assert (H0 : 0 <= INR (S n)) by apply pos_INR.
    assert (Hlow : -4.92 <= 15 - INR (S n) * s) by nra.
    split; [| exact Hlow].
    rewrite Nat.iter_succ.
    replace (15 - INR (S n) * s) with (15 - INR n * s - s)
      by (rewrite S_INR; lra).
    apply fall_keeps_falling; [exact IH |].
    rewrite S_INR in Hlow. lra.
Qed.

(** A particle at the height 15 with the fall speed 0.05, after 100
    frames. *)
Lemma snow_recycled_particle_falls_freely_witness :
  falling 0.05 (15 - INR 100 * 0.05)
    (Nat.iter 100 Snow.fall
       (Snow.mkParticle (vec3 0 15 0) 0.05 1 0 0.05)).
Proof.
  apply (snow_recycled_particle_falls_freely 0.05 100
           (Snow.mkParticle (vec3 0 15 0) 0.05 1 0 0.05)).
  - split; reflexivity.
  - lra.
  - lia.
Defined.

Lemma falls_until_recycled (s v : R) (p : Snow.Particle) (n : nat) :
  falling s v p -> -5 <= v ->
  (exists m, (m <= n)%nat /\ falling s 15 (Nat.iter m Snow.fall p)) \/
  (falling s (v - INR n * s) (Nat.iter n Snow.fall p) /\
   -5 <= v - INR n * s).
Proof.
  intros Hp Hv. induction n as [| n [(m & Hm & H15) | (Hn & Hlow)]].
  - right. cbn [Nat.iter nat_rect INR].
    replace (v - 0 * s) with v by lra. split; [exact Hp | exact Hv].
  - left. exists m. split; [lia | exact H15].
  - destruct (Rlt_dec (v - INR n * s - s) (-5)) as [Hlt | Hge].
    + left. exists (S n). split; [lia |].
      rewrite Nat.iter_succ.
      apply (fall_recycles s (v - INR n * s)); assumption.
    + right. rewrite Nat.iter_succ, S_INR.
      replace (v - (INR n + 1) * s) with (v - INR n * s - s) by lra.
      split; [apply fall_keeps_falling; [exact Hn | lra] | lra].
Qed.

(** X17.  No particle falls forever: each of the particles of the
    construction is recycled to the height 15 within its first 834
    frames. *)
Theorem snow_every_particle_is_recycled (rnd : nat -> R) (k : nat) :
  uniform01 rnd ->
  Forall (fun p =>
            exists n, (n <= 834)%nat /\
              vy (Snow.position (Nat.iter n Snow.fall p)) = Js.Fin 15)
         (Snow.particles rnd k).
Proof.
  intros Hrnd. apply Forall_forall. intros p Hp.
  unfold Snow.particles in Hp. apply in_map_iff in Hp.
  destruct Hp as (i & <- & _).
  destruct (newParticle_falling rnd (k + 7 * i) Hrnd)
    as (s & v & Hp & Hs & Hv).
  destruct (falls_until_recycled s v _ 834 Hp ltac:(lra))
    as [(m & Hm & H15) | (_ & Hlow)].
  - exists m. split; [exact Hm | apply H15].
  - exfalso.
    replace (INR 834) with 834 in Hlow by (rewrite INR_IZR_INZ; reflexivity).
    lra.
Qed.

(** The particles drawn from a constant stream. *)
Lemma snow_every_particle_is_recycled_witness :
  Forall (fun p =>
            exists n, (n <= 834)%nat /\
              vy (Snow.position (Nat.iter n Snow.fall p)) = Js.Fin 15)
         (Snow.particles (constStream (1 / 2)) 0).
Proof.
  apply (snow_every_particle_is_recycled (constStream (1 / 2)) 0).
  intros i. unfold constStream. lra.
Defined.

(** ** The background: how fast it reaches the target *)

Lemma frame_current (r g b r' g' b' delta : R) (s : Background.Scene) :
  Background.currentColor s = rgb r g b ->
  Background.currentColor (Background.frame (rgb r' g' b') delta s)
  = rgb (r' + (1 - Rmin delta 0.1 * 2) * (r - r'))%R
        (g' + (1 - Rmin delta 0.1 * 2) * (g - g'))%R
        (b' + (1 - Rmin delta 0.1 * 2) * (b - b'))%R.
Proof.
  intros Hcur. unfold Background.frame. cbv zeta.
  cbn [Background.currentColor]. rewrite Hcur, min_fin. js_fin.
  unfold lerp. rewrite lerpColors_fin. f_equal; f_equal; ring.
Qed.

Lemma frames_current (deltas : list R) :
  forall (r g b r' g' b' : R) (s : Background.Scene),
  Background.currentColor s = rgb r g b ->
  Background.currentColor
    (backgroundFrames (rgb r' g' b') (map Js.Fin deltas) s)
  = rgb (r' + remaining deltas * (r - r'))%R
        (g' + remaining deltas * (g - g'))%R
        (b' + remaining deltas * (b - b'))%R.
Proof.
  induction deltas as [| delta deltas IH]; intros r g b r' g' b' s Hcur.
  - cbn [map backgroundFrames fold_left remaining]. rewrite Hcur.
    f_equal; f_equal; ring.
  - cbn [map remaining]. unfold backgroundFrames. cbn [fold_left].
    fold (backgroundFrames (rgb r' g' b') (map Js.Fin deltas)
            (Background.frame (rgb r' g' b') delta s)).
    rewrite (IH _ _ _ r' g' b' _
               (frame_current r g b r' g' b' delta s Hcur)).
    f_equal; f_equal; ring.
Qed.

Lemma remaining_bound (dmin : R) (deltas : list R) :
  0 <= dmin <= 0.1 -> Forall (fun delta => dmin <= delta) deltas ->
  0 <= remaining deltas <= (1 - 2 * dmin) ^ List.length deltas.
Proof.
  intros Hd Hall. induction Hall as [| delta deltas Hdelta _ IH].
  - cbn. lra.
  - cbn [remaining List.length pow].
    assert (Hf : 0.8 <= 1 - Rmin delta 0.1 * 2 <= 1 - 2 * dmin).
    { unfold Rmin. destruct (Rle_dec delta 0.1); lra. }
    nra.
Qed.

Lemma pow_08_31 : 0.8 ^ 31 <= 0.001.
Proof. cbn [pow]. lra. Qed.

(** X18.  The background closes in on its target geometrically: after the
    frames of real frame times [deltas] every channel stands at
    [target + c * (start - target)] with one and the same factor [c], the
    product of the factors [1 - min(delta, 0.1) * 2]; if no frame time is
    below [dmin], [c] is at most [(1 - 2 * dmin) ^ n] after [n] frames, and
    after 31 frames of a tenth of a second or more less than a thousandth
    of the distance is left. *)
Theorem background_converges_geometrically
    (dmin r g b r' g' b' : R) (deltas : list R) (s : Background.Scene) :
  0 <= dmin <= 0.1 ->
  Forall (fun delta => dmin <= delta) deltas ->
  Background.currentColor s = rgb r g b ->
  exists c : R,
    Background.currentColor
      (backgroundFrames (rgb r' g' b') (map Js.Fin deltas) s)
    = rgb (r' + c * (r - r'))%R (g' + c * (g - g'))%R (b' + c * (b - b'))%R
    /\
    0 <= c <= (1 - 2 * dmin) ^ List.length deltas /\
    (dmin = 0.1 -> (31 <= List.length deltas)%nat -> c <= 0.001).
Proof.
  intros Hd Hall Hcur. exists (remaining deltas).
  split; [apply frames_current; exact Hcur |].
  pose proof (remaining_bound dmin deltas Hd Hall) as Hb.
  split; [exact Hb |].
  intros -> Hn.
  replace (1 - 2 * 0.1) with 0.8 in Hb by lra.
  assert (Hpow : 0.8 ^ List.length deltas <= 0.8 ^ 31).
  { replace (List.length deltas) with (31 + (List.length deltas - 31))%nat
      by lia.
    rewrite pow_add.
    assert (H0 : 0 <= 0.8 ^ 31) by (apply pow_le; lra).
    assert (H1 : 0.8 ^ (List.length deltas - 31) <= 1).
    { rewrite <- (pow1 (List.length deltas - 31)).
      apply pow_incr. lra. }
    nra. }
  pose proof pow_08_31. lra.
Qed.

(** Two frames of a tenth of a second, from black toward white. *)
Lemma background_converges_geometrically_witness :
  exists c : R,
    Background.currentColor
      (backgroundFrames (rgb 1 1 1) (map Js.Fin [0.1; 0.1])
         (Background.mkScene (rgb 0 0 0) None None))
    = rgb (1 + c * (0 - 1))%R (1 + c * (0 - 1))%R (1 + c * (0 - 1))%R /\
    0 <= c <= (1 - 2 * 0.1) ^ 2.
Proof.
  destruct (background_converges_geometrically 0.1 0 0 0 1 1 1 [0.1; 0.1]
              (Background.mkScene (rgb 0 0 0) None None))
    as (c & Hc & Hb & _).
  - lra.
  - repeat constructor; lra.
  - reflexivity.
  - exists c. split; [exact Hc | exact Hb].
Defined.

(** X19.  The frame time is clamped from above only: a negative frame
    time makes the blend factor negative and pushes every channel away from
    the target, by the factor [1 - 2 * delta > 1]; and a frame time that is
    not a number leaves a colour that is not a number. *)
Theorem background_negative_delta_moves_away
    (delta r g b r' g' b' : R) (s : Background.Scene) :
  delta < 0 ->
  Background.currentColor s = rgb r g b ->
  Background.currentColor (Background.frame (rgb r' g' b') delta s)
  = rgb (r' + (1 - 2 * delta) * (r - r'))%R
        (g' + (1 - 2 * delta) * (g - g'))%R
        (b' + (1 - 2 * delta) * (b - b'))%R /\
  1 < 1 - 2 * delta /\
  Background.currentColor (Background.frame (rgb r' g' b') Js.NaN s)
  = rgb Js.NaN Js.NaN Js.NaN.
Proof.
  intros Hdelta Hcur. split; [| split; [lra |]].
  - rewrite (frame_current r g b r' g' b' delta s Hcur).
    rewrite Rmin_left by lra. f_equal; f_equal; ring.
  - unfold Background.frame. cbv zeta. cbn [Background.currentColor].
    unfold lerp. cbn [Js.min Js.mul]. apply lerpColors_nan.
Qed.

(** A frame time of minus a tenth of a second, from grey toward white. *)
Lemma background_negative_delta_moves_away_witness :
  Background.currentColor
    (Background.frame (rgb 1 1 1) (Js.Fin (-0.1))
       (Background.mkScene (rgb 0.5 0.5 0.5) None None))
  = rgb (1 + (1 - 2 * -0.1) * (0.5 - 1))%R
        (1 + (1 - 2 * -0.1) * (0.5 - 1))%R
        (1 + (1 - 2 * -0.1) * (0.5 - 1))%R.
Proof.
  apply (background_negative_delta_moves_away (-0.1) 0.5 0.5 0.5 1 1 1
           (Background.mkScene (rgb 0.5 0.5 0.5) None None));
    [lra | reflexivity].
Defined.

(** ** Idle motion *)




(** ** The application state *)

Lemma sceneProps_handle (s1 s2 : App.AppState) (e : App.Event) :
  App.sceneProps s1 = App.sceneProps s2 ->
  App.sceneProps (App.handle s1 e) = App.sceneProps (App.handle s2 e).
Proof.
  unfold App.sceneProps. intros [= Ht Hb Hr].
  destruct e as [key | value | | | canvas recorder |]; cbn;
    try (rewrite ?Ht, ?Hb, ?Hr; reflexivity).
  destruct canvas, recorder; cbn; rewrite ?Ht, ?Hb, ?Hr; reflexivity.
Qed.

Lemma sceneProps_mode_change (s : App.AppState) (e : App.Event) :
  App.changesMode e = true ->
  App.sceneProps (App.handle s e) = App.sceneProps s.
Proof. destruct e; intros H; try discriminate H; reflexivity. Qed.

Lemma mode_handle (s1 s2 : App.AppState) (e : App.Event) :
  App.mode s1 = App.mode s2 ->
  App.mode (App.handle s1 e) = App.mode (App.handle s2 e).
Proof.
  intros Hm.
  destruct e as [key | value | | | canvas recorder |]; cbn;
    try exact Hm; try reflexivity.
  destruct canvas, recorder; cbn; exact Hm.
Qed.

Lemma mode_scene_change (s : App.AppState) (e : App.Event) :
  App.changesMode e = false -> App.mode (App.handle s e) = App.mode s.
Proof.
  destruct e as [key | value | | | canvas recorder |]; intros H;
    try discriminate H; try reflexivity.
  destruct canvas, recorder; reflexivity.
Qed.

Lemma sceneProps_erasure (es : list App.Event) :
  forall s1 s2 : App.AppState,
  App.sceneProps s1 = App.sceneProps s2 ->
  App.sceneProps (App.handleAll es s1) =
  App.sceneProps
    (App.handleAll (filter (fun e => negb (App.changesMode e)) es) s2).
Proof.
  unfold App.handleAll.
  induction es as [| e es IH]; intros s1 s2 H; [exact H |].
  cbn [fold_left filter].
  destruct (App.changesMode e) eqn:Ee; cbn [negb fold_left].
  - apply IH. rewrite sceneProps_mode_change by exact Ee. exact H.
  - apply IH. apply sceneProps_handle. exact H.
Qed.

Lemma mode_erasure (es : list App.Event) :
  forall s1 s2 : App.AppState,
  App.mode s1 = App.mode s2 ->
  App.mode (App.handleAll es s1) =
  App.mode (App.handleAll (filter App.changesMode es) s2).
Proof.
  unfold App.handleAll.
  induction es as [| e es IH]; intros s1 s2 H; [exact H |].
  cbn [fold_left filter].
  destruct (App.changesMode e) eqn:Ee; cbn [fold_left].
  - apply IH. apply mode_handle. exact H.
  - apply IH. rewrite mode_scene_change by exact Ee. exact H.
Qed.

(** X21.  Switching between the edit and the view mode is invisible to
    the scene: after any sequence of events the props handed to
    [SceneContent] (theme, text, recording flag), and with them the speed of
    the automatic rotation, are those the sequence gives with its mode
    switches left out; and the mode is the one the mode switches alone
    give. *)
Theorem mode_switches_invisible_to_scene
    (es : list App.Event) (s : App.AppState) :
  let scene := filter (fun e => negb (App.changesMode e)) es in
  App.sceneProps (App.handleAll es s) =
  App.sceneProps (App.handleAll scene s) /\
  App.autoRotateSpeed (App.isRecording (App.handleAll es s)) =
  App.autoRotateSpeed (App.isRecording (App.handleAll scene s)) /\
  App.mode (App.handleAll es s) =
  App.mode (App.handleAll (filter App.changesMode es) s).
Proof.
  cbv zeta.
  pose proof (sceneProps_erasure es s s eq_refl) as H.
  split; [exact H |]. split.
  - unfold App.sceneProps in H. injection H as _ _ ->. reflexivity.
  - apply mode_erasure. reflexivity.
Qed.

(** ** The brush layout: the jitter of the orientation *)

Lemma brushAt_finite (rnd : nat -> R) (N L k j : nat) :
  uniform01 rnd -> L <> 1%nat -> (j < N / L * L)%nat ->
  finiteVector (brushAt rnd N L k j).
Proof.
  intros Hrnd HL1 Hj.
  assert (HL : (2 <= L)%nat) by (destruct L as [| [| L']]; lia).
  assert (Hl : (layerOf N L j < L)%nat).
  { unfold layerOf. apply Nat.Div0.div_lt_upper_bound. lia. }
  unfold brushAt. cbv zeta. rewrite yBase_fin.
  destruct (radiusBase_fin L _ HL Hl) as (rB & -> & HrB).
  pose proof (Hrnd (k + 7 * j)%nat) as Hu.
  unfold Tree.brushPosition. cbv zeta.
  rewrite sqrt_fin by lra. js_fin.
  do 3 eexists. reflexivity.
Qed.

(** X22.  Every brush looks at the point of the axis five units above its
    own height, and is then turned by a bounded jitter: for a brush for
    which [lookAt] answers real angles, the stored Euler angles are real and
    differ from them by at most 0.5 about x, 1 about y and 0.5 about z. *)
Theorem brush_rotation_jitter_bounded
    (rnd : nat -> R) (lookAt : Vector3 -> Vector3 -> Vector3) (N L k j : nat)
    (ex ey ez : R) :
  uniform01 rnd ->
  (j < N / L * L)%nat ->
  lookAt (brushAt rnd N L k j)
         (vec3 0 (vy (brushAt rnd N L k j) + 5)%js 0)
  = vec3 ex ey ez ->
  exists rx ry rz : R,
    Tree.read3 (Tree.rot (Tree.layout rnd lookAt N L k)) j
    = (Some (Js.Fin rx), Some (Js.Fin ry), Some (Js.Fin rz)) /\
    Rabs (rx - ex) <= 0.5 /\ Rabs (ry - ey) <= 1 /\ Rabs (rz - ez) <= 0.5.
Proof.
  intros Hrnd Hj He.
  destruct (layout_arrays rnd lookAt N L k) as (_ & Hr & _).
  assert (Hread :
    Some (Tree.read3 (Tree.rot (Tree.layout rnd lookAt N L k)) j)
    = readsOf (brushRotation rnd lookAt N L k j)).
  { rewrite Hr. apply read3_triples; [reflexivity | exact Hj]. }
  unfold brushRotation in Hread. cbv zeta in Hread.
  set (p := brushAt rnd N L k j) in *.
  rewrite He in Hread.
  pose proof (Hrnd (k + 7 * j + 3)%nat) as Hu3.
  pose proof (Hrnd (k + 7 * j + 4)%nat) as Hu4.
  pose proof (Hrnd (k + 7 * j + 5)%nat) as Hu5.
  set (u3 := rnd (k + 7 * j + 3)%nat) in *.
  set (u4 := rnd (k + 7 * j + 4)%nat) in *.
  set (u5 := rnd (k + 7 * j + 5)%nat) in *.
  clearbody u3 u4 u5.
  cbn [vx vy vz readsOf Js.add Js.sub Js.neg Js.mul] in Hread.
  injection Hread as H1 H2 H3.
  do 3 eexists. split.
  - unfold Tree.read3. rewrite H1, H2, H3. reflexivity.
  - repeat split; apply Rabs_le; lra.
Qed.

(** The first brush of the layout of the source, with a [lookAt] that
    answers no number where the position is none. *)
Lemma brush_rotation_jitter_bounded_witness :
  exists ey rx ry rz : R,
    Tree.read3
      (Tree.rot (Tree.layout (constStream (1 / 2)) nanLookAt 1100 9 0)) 0
    = (Some (Js.Fin rx), Some (Js.Fin ry), Some (Js.Fin rz)) /\
    Rabs (rx - 0) <= 0.5 /\ Rabs (ry - ey) <= 1 /\ Rabs (rz - 0) <= 0.5.
Proof.
  assert (Hrnd : uniform01 (constStream (1 / 2)))
    by (intros i; unfold constStream; lra).
  assert (Hj : (0 < 1100 / 9 * 9)%nat) by (vm_compute; lia).
  destruct (brushAt_finite (constStream (1 / 2)) 1100 9 0 0 Hrnd
              ltac:(discriminate) Hj) as (x & y & z & Hp).
  exists (Js.atan2R x z).
  apply (brush_rotation_jitter_bounded (constStream (1 / 2)) nanLookAt
           1100 9 0 0 0 (Js.atan2R x z) 0 Hrnd Hj).
  rewrite Hp. reflexivity.
Defined.

(** ** The background: what the scene shows *)

Lemma frame_shows_current (targetColor : Color) (delta : Js.num)
    (s : Background.Scene) :
  let s' := Background.frame targetColor delta s in
  Background.background s' = Some (Background.currentColor s') /\
  (Background.fog s = None -> Background.fog s' = None) /\
  (Background.fog s <> None ->
   Background.fog s' = Some (Background.currentColor s')).
Proof.
  cbv zeta. unfold Background.frame. cbv zeta.
  cbn [Background.background Background.fog Background.currentColor].
  destruct (Background.fog s) as [c |].
  - split; [reflexivity |]. split; [discriminate | reflexivity].
  - split; [reflexivity |]. split; [reflexivity |].
    intros H. contradiction H. reflexivity.
Qed.

(** X23.  After one frame or more, whatever the frame times, the scene
    background is the current colour, and the fog has that very colour if
    the scene has a fog, while a scene without fog stays without. *)
Theorem background_and_fog_follow_current
    (targetColor : Color) (deltas : list Js.num) (s : Background.Scene) :
  deltas <> [] ->
  let s' := backgroundFrames targetColor deltas s in
  Background.background s' = Some (Background.currentColor s') /\
  (Background.fog s = None -> Background.fog s' = None) /\
  (Background.fog s <> None ->
   Background.fog s' = Some (Background.currentColor s')).
Proof.
  cbv zeta. unfold backgroundFrames. revert s.
  induction deltas as [| delta deltas IH]; intros s Hne; [contradiction |].
  cbn [fold_left].
  destruct (frame_shows_current targetColor delta s) as (Hb & Hnone & Hsome).
  destruct deltas as [| delta' deltas].
  - cbn [fold_left]. repeat split; assumption.
  - destruct (IH (Background.frame targetColor delta s) ltac:(discriminate))
      as (Hb' & Hnone' & Hsome').
    split; [exact Hb' |]. split.
    + intros H. apply Hnone', Hnone, H.
    + intros H. apply Hsome'. rewrite (Hsome H). discriminate.
Qed.

(** Two frames on a scene with a fog. *)
Lemma background_and_fog_follow_current_witness :
  Background.fog
    (backgroundFrames (rgb 1 1 1) [Js.Fin 0.02; Js.Fin 0.02]
       (Background.mkScene (rgb 0 0 0) None (Some (rgb 0 0 0))))
  = Some (Background.currentColor
            (backgroundFrames (rgb 1 1 1) [Js.Fin 0.02; Js.Fin 0.02]
               (Background.mkScene (rgb 0 0 0) None (Some (rgb 0 0 0))))).
Proof.
  apply (background_and_fog_follow_current (rgb 1 1 1)
           [Js.Fin 0.02; Js.Fin 0.02]
           (Background.mkScene (rgb 0 0 0) None (Some (rgb 0 0 0))));
    discriminate.
Defined.
